(** * StateChannel: the two-party payment-channel engine

    A shallow embedding of [contracts/StateChannel.sol] (with the structs of
    [interfaces/IERC7824.sol]) and the proofs of the properties that the
    channel specification states about it.

    Conventions of the embedding:
    - [uint256], [bytes32] and [address] values are [N]; Solidity 0.8 checked
      arithmetic is written out ([checked_add], [checked_sub]) and reverts
      with [Panic 0x11];
    - a Solidity [mapping] is a [gmap] read with the zero value as default;
    - a contract function is a computation [M A] over the contract storage,
      which either returns a value and a new storage or reverts with an
      [Error]; a reverted transaction leaves the storage as it was ([exec]);
    - the ether held by the contract is the storage field [this_balance];
      every outgoing [transfer] is recorded, in order, in [payments];
    - hashing and signature recovery are parameters of the development. *)

From Stdlib Require Import NArith Lia String List Bool.
From stdpp Require Import gmap.
Import ListNotations.
Open Scope N_scope.

(** ** Value types *)

Abbreviation address := N (only parsing).
Abbreviation bytes32 := N (only parsing).
Abbreviation uint256 := N (only parsing).
Abbreviation bytes := (list Byte.byte) (only parsing).

Definition MAX_UINT256 : N := 2 ^ 256 - 1.

(** Solidity's zero-initialised default of a type. *)
Class Zero (V : Type) := zero : V.

#[export] Instance N_Zero : Zero N := 0.
#[export] Instance bool_Zero : Zero bool := false.

(** Reading [m[k]] of a Solidity mapping: an absent key reads as zero. *)
Definition mget {V} `{Zero V} (m : gmap N V) (k : N) : V :=
  default zero (m !! k).

(** Writing [m[k] = v]. *)
Definition mset {V} (m : gmap N V) (k : N) (v : V) : gmap N V :=
  <[k := v]> m.

Arguments mget : simpl never.
Arguments mset : simpl never.

(** ** IERC7824 structs *)

Module ChannelData.
Record t := mk {
  participant1 : address;
  participant2 : address;
  balance1 : uint256;
  balance2 : uint256;
  nonce : uint256;
  timeout : uint256;
  isActive : bool
}.
End ChannelData.

Module StateUpdate.
Record t := mk {
  channelId : bytes32;
  nonce : uint256;
  balance1 : uint256;
  balance2 : uint256;
  signature1 : bytes;
  signature2 : bytes
}.
End StateUpdate.

#[export] Instance ChannelData_Zero : Zero ChannelData.t :=
  ChannelData.mk 0 0 0 0 0 0 false.

(** ** Events *)

Inductive Event :=
| ChannelOpened (channelId : bytes32) (participant1 participant2 : address)
    (amount1 amount2 : uint256)
| ChannelUpdated (channelId : bytes32) (nonce balance1 balance2 : uint256)
| ChannelClosed (channelId : bytes32) (finalBalance1 finalBalance2 : uint256)
| ChannelDisputed (channelId : bytes32) (disputer : address)
    (disputeTimeout : uint256)
| YellowNetworkOracleUpdated (newOracle : address)
| RelayerAuthorized (relayer : address) (authorized : bool)
| FeesUpdated (channelFee relayerFee : uint256)
| OwnershipTransferred (previousOwner newOwner : address).

(** ** Contract storage *)

Record State := mkState {
  channels : gmap N ChannelData.t;
  disputeTimeouts : gmap N N;
  inDispute : gmap N bool;
  yellowNetworkOracle : address;
  authorizedRelayers : gmap N bool;
  channelFee : uint256;
  relayerFee : uint256;
  owner : address;                      (* Ownable._owner *)
  this_balance : uint256;               (* address(this).balance *)
  events : list Event;                  (* emitted, oldest first *)
  payments : list (address * uint256)   (* outgoing transfers, oldest first *)
}.

(** Constants *)
Definition DISPUTE_TIMEOUT : uint256 := 86400.   (* 1 days *)
Definition MIN_TIMEOUT : uint256 := 3600.        (* 1 hours *)
Definition MAX_TIMEOUT : uint256 := 2592000.     (* 30 days *)
Definition ether : uint256 := 10 ^ 18.

(** What a call sees of its transaction and block. *)
Record Env := mkEnv {
  msg_sender : address;
  block_timestamp : uint256;
  block_number : uint256
}.

(** ** Reverting computations over the storage *)

Inductive Error :=
| Revert (reason : string)    (* a failed [require] *)
| Panic (code : N)            (* 0x11: arithmetic overflow or underflow *)
| TransferFailed              (* [payable(a).transfer(v)] reverted *)
| ECDSAInvalidSignature.      (* [ECDSA.recover] reverted *)

Inductive Result (A : Type) :=
| Ok (a : A)
| Err (e : Error).

Arguments Ok {A} a.
Arguments Err {A} e.

Definition M (A : Type) : Type := State -> Result (A * State).

Definition ret {A} (a : A) : M A := fun st => Ok (a, st).

Definition bind {A B} (m : M A) (k : A -> M B) : M B :=
  fun st => match m st with
            | Ok (a, st') => k a st'
            | Err e => Err e
            end.

Notation "'do' x <- m ; k" := (bind m (fun x => k))
  (at level 10, x name, m at level 100, k at level 200).
Notation "m >> k" := (bind m (fun _ => k))
  (at level 100, k at level 200, right associativity).

Definition fail {A} (e : Error) : M A := fun _ => Err e.
Definition gets {A} (f : State -> A) : M A := fun st => Ok (f st, st).
Definition modify (f : State -> State) : M unit := fun st => Ok (tt, f st).

Definition require (cond : bool) (reason : string) : M unit :=
  if cond then ret tt else fail (Revert reason).

Definition when (cond : bool) (m : M unit) : M unit :=
  if cond then m else ret tt.

Definition checked_add (a b : uint256) : M uint256 :=
  if a + b <=? MAX_UINT256 then ret (a + b) else fail (Panic 17).

Definition checked_sub (a b : uint256) : M uint256 :=
  if b <=? a then ret (a - b) else fail (Panic 17).

(** The storage after a transaction: a revert rolls everything back. *)
Definition exec {A} (call : M A) (st : State) : State :=
  match call st with
  | Ok (_, st') => st'
  | Err _ => st
  end.

(** The revert reasons the specification names. *)
Definition InvalidNonce := Revert "Invalid nonce".
Definition InvalidBalanceSum := Revert "Invalid balance sum".
Definition ChannelInactive := Revert "Channel not active".
Definition ChannelInDispute := Revert "Channel in dispute".
Definition NotParticipant := Revert "Not a channel participant".
Definition UnauthorizedRelayer := Revert "Unauthorized relayer".
Definition NoActiveDispute := Revert "No active dispute".
Definition DisputePeriodNotEnded := Revert "Dispute period not ended".

(** ** Storage updates *)

Definition set_channels (f : gmap N ChannelData.t -> gmap N ChannelData.t)
  (st : State) : State :=
  mkState (f (channels st)) (disputeTimeouts st) (inDispute st)
    (yellowNetworkOracle st) (authorizedRelayers st) (channelFee st)
    (relayerFee st) (owner st) (this_balance st) (events st) (payments st).

Definition set_disputeTimeouts (f : gmap N N -> gmap N N) (st : State) : State :=
  mkState (channels st) (f (disputeTimeouts st)) (inDispute st)
    (yellowNetworkOracle st) (authorizedRelayers st) (channelFee st)
    (relayerFee st) (owner st) (this_balance st) (events st) (payments st).

Definition set_inDispute (f : gmap N bool -> gmap N bool) (st : State) : State :=
  mkState (channels st) (disputeTimeouts st) (f (inDispute st))
    (yellowNetworkOracle st) (authorizedRelayers st) (channelFee st)
    (relayerFee st) (owner st) (this_balance st) (events st) (payments st).

Definition set_yellowNetworkOracle (a : address) (st : State) : State :=
  mkState (channels st) (disputeTimeouts st) (inDispute st)
    a (authorizedRelayers st) (channelFee st)
    (relayerFee st) (owner st) (this_balance st) (events st) (payments st).

Definition set_authorizedRelayers (f : gmap N bool -> gmap N bool)
  (st : State) : State :=
  mkState (channels st) (disputeTimeouts st) (inDispute st)
    (yellowNetworkOracle st) (f (authorizedRelayers st)) (channelFee st)
    (relayerFee st) (owner st) (this_balance st) (events st) (payments st).

Definition set_fees (cf rf : uint256) (st : State) : State :=
  mkState (channels st) (disputeTimeouts st) (inDispute st)
    (yellowNetworkOracle st) (authorizedRelayers st) cf
    rf (owner st) (this_balance st) (events st) (payments st).

Definition set_owner (a : address) (st : State) : State :=
  mkState (channels st) (disputeTimeouts st) (inDispute st)
    (yellowNetworkOracle st) (authorizedRelayers st) (channelFee st)
    (relayerFee st) a (this_balance st) (events st) (payments st).

(** Ether entering the contract with a payable call. *)
Definition credit (value : uint256) (st : State) : State :=
  mkState (channels st) (disputeTimeouts st) (inDispute st)
    (yellowNetworkOracle st) (authorizedRelayers st) (channelFee st)
    (relayerFee st) (owner st) (this_balance st + value) (events st)
    (payments st).

(** Ether leaving the contract towards [to]. *)
Definition pay (to : address) (amount : uint256) (st : State) : State :=
  mkState (channels st) (disputeTimeouts st) (inDispute st)
    (yellowNetworkOracle st) (authorizedRelayers st) (channelFee st)
    (relayerFee st) (owner st) (this_balance st - amount) (events st)
    (payments st ++ [(to, amount)]).

Definition log (e : Event) (st : State) : State :=
  mkState (channels st) (disputeTimeouts st) (inDispute st)
    (yellowNetworkOracle st) (authorizedRelayers st) (channelFee st)
    (relayerFee st) (owner st) (this_balance st) (events st ++ [e])
    (payments st).

Definition emit (e : Event) : M unit := modify (log e).

(** [channels[id]], [inDispute[id]], [disputeTimeouts[id]],
    [authorizedRelayers[a]] *)
Definition channel_of (id : bytes32) (st : State) : ChannelData.t :=
  mget (channels st) id.
Definition inDispute_of (id : bytes32) (st : State) : bool :=
  mget (inDispute st) id.
Definition disputeTimeout_of (id : bytes32) (st : State) : uint256 :=
  mget (disputeTimeouts st) id.
Definition authorized (relayer : address) (st : State) : bool :=
  mget (authorizedRelayers st) relayer.

(** Field assignments through a [ChannelData storage] pointer. *)
Definition with_state (b1 b2 n : uint256) (c : ChannelData.t) : ChannelData.t :=
  ChannelData.mk (ChannelData.participant1 c) (ChannelData.participant2 c)
    b1 b2 n (ChannelData.timeout c) (ChannelData.isActive c).

Definition with_isActive (a : bool) (c : ChannelData.t) : ChannelData.t :=
  ChannelData.mk (ChannelData.participant1 c) (ChannelData.participant2 c)
    (ChannelData.balance1 c) (ChannelData.balance2 c) (ChannelData.nonce c)
    (ChannelData.timeout c) a.

Definition with_balances (b1 b2 : uint256) (c : ChannelData.t) : ChannelData.t :=
  ChannelData.mk (ChannelData.participant1 c) (ChannelData.participant2 c)
    b1 b2 (ChannelData.nonce c) (ChannelData.timeout c)
    (ChannelData.isActive c).

Definition update_channel (id : bytes32) (f : ChannelData.t -> ChannelData.t)
  (st : State) : State :=
  set_channels (fun m => mset m id (f (mget m id))) st.

(** The sum the conservation rule is about. *)
Definition total (c : ChannelData.t) : N :=
  ChannelData.balance1 c + ChannelData.balance2 c.

(** ** ABI packing *)

Definition byte_of_N (n : N) : Byte.byte :=
  default Byte.x00 (Byte.of_N (n mod 256)).

(** The [len] low-order bytes of [v], most significant first. *)
Fixpoint be_bytes (len : nat) (v : N) : bytes :=
  match len with
  | O => []
  | S k => be_bytes k (v / 256) ++ [byte_of_N v]
  end.

Inductive AbiValue :=
| abi_address (a : address)
| abi_uint256 (v : uint256)
| abi_bytes32 (v : bytes32).

Definition encode_one (v : AbiValue) : bytes :=
  match v with
  | abi_address a => be_bytes 20 a
  | abi_uint256 v => be_bytes 32 v
  | abi_bytes32 v => be_bytes 32 v
  end.

(** [abi.encodePacked(...)] *)
Definition encodePacked (vs : list AbiValue) : bytes :=
  concat (map encode_one vs).

(** ** The platform

    What the contract takes from outside its own source: [keccak256],
    OpenZeppelin's [ECDSA.recover] ([None] when it reverts on a malformed
    signature), the contract's own address, and which accounts accept a plain
    ether transfer (an externally owned account always does; a contract does
    when its receive function runs within the 2300 gas stipend). *)

Class Platform := {
  keccak256 : bytes -> bytes32;
  recover : bytes32 -> bytes -> option address;
  this : address;
  receives : address -> bool
}.

(** ** The contract *)

Section StateChannel.

Context `{Platform}.

(** [MessageHashUtils.toEthSignedMessageHash]: the hash of the message
    prefixed with "\x19Ethereum Signed Message:\n32". *)
Definition toEthSignedMessageHash (messageHash : bytes32) : bytes32 :=
  keccak256 (Byte.x19 :: list_byte_of_string "Ethereum Signed Message:"
             ++ Byte.x0a :: list_byte_of_string "32"
             ++ be_bytes 32 messageHash).

(** [payable(to).transfer(amount)]: reverts when the contract holds less than
    [amount] or the recipient does not accept it. The contract itself has no
    receive function. *)
Definition transfer (to : address) (amount : uint256) : M unit :=
  fun st =>
    if (amount <=? this_balance st) && negb (to =? this) && receives to
    then Ok (tt, pay to amount st)
    else Err TransferFailed.

(** *** Modifiers *)

Definition onlyParticipant {A} (env : Env) (channelId : bytes32) (body : M A)
  : M A :=
  do channel <- gets (channel_of channelId);
  require ((msg_sender env =? ChannelData.participant1 channel)
           || (msg_sender env =? ChannelData.participant2 channel))
          "Not a channel participant" >>
  body.

Definition onlyActive {A} (channelId : bytes32) (body : M A) : M A :=
  do channel <- gets (channel_of channelId);
  require (ChannelData.isActive channel) "Channel not active" >>
  body.

Definition notInDispute {A} (channelId : bytes32) (body : M A) : M A :=
  do d <- gets (inDispute_of channelId);
  require (negb d) "Channel in dispute" >>
  body.

(** [Ownable.onlyOwner] of OpenZeppelin, which the contract inherits and
    which is not among the repository's sources: the stored owner is compared
    with the caller, and the revert reason is the one the repository's test
    of the administrative functions expects. *)
Definition onlyOwner {A} (env : Env) (body : M A) : M A :=
  do o <- gets owner;
  require (msg_sender env =? o) "Ownable: caller is not the owner" >>
  body.

(** [ReentrancyGuard.nonReentrant]. A [transfer] of the model runs no code of
    the recipient, so the guard's status word is never found set when a
    guarded function is entered; the modifier is kept as a marker. *)
Definition nonReentrant {A} (body : M A) : M A := body.

(** *** Internal functions *)

Definition _getStateUpdateHash (update : StateUpdate.t) : bytes32 :=
  keccak256 (encodePacked
    [abi_bytes32 (StateUpdate.channelId update);
     abi_uint256 (StateUpdate.nonce update);
     abi_uint256 (StateUpdate.balance1 update);
     abi_uint256 (StateUpdate.balance2 update)]).

Definition _isValidSignature (messageHash : bytes32) (signature : bytes)
  (signer : address) : M bool :=
  match recover (toEthSignedMessageHash messageHash) signature with
  | Some a => ret (a =? signer)
  | None => fail ECDSAInvalidSignature
  end.

(** *** Channel lifecycle *)

Definition constructor (deployer _yellowNetworkOracle : address) : State :=
  mkState ∅ ∅ ∅ _yellowNetworkOracle ∅ (ether / 1000) (ether / 10000)
    deployer 0 [OwnershipTransferred 0 deployer] [].

(** [openChannel] is payable: [value] is the call's [msg.value], already
    credited to the contract when the body runs. *)
Definition openChannel (env : Env) (value : uint256)
  (participant1 participant2 : address) (amount1 amount2 timeout : uint256)
  : M bytes32 :=
  modify (credit value) >>
  nonReentrant (
    require (negb (participant1 =? participant2))
            "Participants must be different" >>
    require (negb (participant1 =? 0) && negb (participant2 =? 0))
            "Invalid participants" >>
    require ((MIN_TIMEOUT <=? timeout) && (timeout <=? MAX_TIMEOUT))
            "Invalid timeout" >>
    do deposit <- checked_add amount1 amount2;
    do fee <- gets channelFee;
    do needed <- checked_add deposit fee;
    require (needed <=? value) "Insufficient funds" >>
    let channelId :=
      keccak256 (encodePacked
        [abi_address participant1; abi_address participant2;
         abi_uint256 (block_timestamp env); abi_uint256 (block_number env)]) in
    modify (set_channels (fun m => mset m channelId
      (ChannelData.mk participant1 participant2 amount1 amount2 0 timeout
         true))) >>
    emit (ChannelOpened channelId participant1 participant2 amount1 amount2) >>
    ret channelId).

(** [updateChannel] is also what [closeChannel], [resolveDispute] and
    [relayTransaction] call; such a call runs the function with its two
    modifiers in the caller's transaction. *)
Definition updateChannel (update : StateUpdate.t) : M unit :=
  let channelId := StateUpdate.channelId update in
  onlyActive channelId (notInDispute channelId (
    do channel <- gets (channel_of channelId);
    require (ChannelData.nonce channel <? StateUpdate.nonce update)
            "Invalid nonce" >>
    do proposed <- checked_add (StateUpdate.balance1 update)
                               (StateUpdate.balance2 update);
    do current <- checked_add (ChannelData.balance1 channel)
                              (ChannelData.balance2 channel);
    require (proposed =? current) "Invalid balance sum" >>
    let messageHash := _getStateUpdateHash update in
    do ok1 <- _isValidSignature messageHash (StateUpdate.signature1 update)
                (ChannelData.participant1 channel);
    require ok1 "Invalid signature from participant1" >>
    do ok2 <- _isValidSignature messageHash (StateUpdate.signature2 update)
                (ChannelData.participant2 channel);
    require ok2 "Invalid signature from participant2" >>
    modify (update_channel channelId
      (with_state (StateUpdate.balance1 update) (StateUpdate.balance2 update)
                  (StateUpdate.nonce update))) >>
    emit (ChannelUpdated channelId (StateUpdate.nonce update)
            (StateUpdate.balance1 update) (StateUpdate.balance2 update)))).

Definition closeChannel (env : Env) (channelId : bytes32)
  (finalUpdate : StateUpdate.t) : M unit :=
  onlyParticipant env channelId (onlyActive channelId (
  notInDispute channelId (nonReentrant (
    when (0 <? StateUpdate.nonce finalUpdate) (updateChannel finalUpdate) >>
    modify (update_channel channelId (with_isActive false)) >>
    do channel <- gets (channel_of channelId);
    when (0 <? ChannelData.balance1 channel)
      (transfer (ChannelData.participant1 channel)
                (ChannelData.balance1 channel)) >>
    when (0 <? ChannelData.balance2 channel)
      (transfer (ChannelData.participant2 channel)
                (ChannelData.balance2 channel)) >>
    emit (ChannelClosed channelId (ChannelData.balance1 channel)
            (ChannelData.balance2 channel)))))).

(** *** Disputes *)

Definition disputeChannel (env : Env) (channelId : bytes32) : M unit :=
  onlyParticipant env channelId (onlyActive channelId (
    do d <- gets (inDispute_of channelId);
    require (negb d) "Already in dispute" >>
    modify (set_inDispute (fun m => mset m channelId true)) >>
    do deadline <- checked_add (block_timestamp env) DISPUTE_TIMEOUT;
    modify (set_disputeTimeouts (fun m => mset m channelId deadline)) >>
    do stored <- gets (disputeTimeout_of channelId);
    emit (ChannelDisputed channelId (msg_sender env) stored))).

(** [delete disputeTimeouts[channelId]] stores zero. *)
Definition resolveDispute (env : Env) (channelId : bytes32)
  (update : StateUpdate.t) : M unit :=
  onlyParticipant env channelId (
    do d <- gets (inDispute_of channelId);
    require d "No active dispute" >>
    do deadline <- gets (disputeTimeout_of channelId);
    require (block_timestamp env <=? deadline) "Dispute timeout exceeded" >>
    updateChannel update >>
    modify (set_inDispute (fun m => mset m channelId false)) >>
    modify (set_disputeTimeouts (fun m => mset m channelId 0))).

Definition withdrawTimelock (env : Env) (channelId : bytes32) : M unit :=
  onlyParticipant env channelId (nonReentrant (
    do d <- gets (inDispute_of channelId);
    require d "No active dispute" >>
    do deadline <- gets (disputeTimeout_of channelId);
    require (deadline <? block_timestamp env) "Dispute period not ended" >>
    modify (update_channel channelId (with_isActive false)) >>
    modify (set_inDispute (fun m => mset m channelId false)) >>
    do channel <- gets (channel_of channelId);
    do totalBalance <- checked_add (ChannelData.balance1 channel)
                                   (ChannelData.balance2 channel);
    let splitAmount := totalBalance / 2 in
    transfer (ChannelData.participant1 channel) splitAmount >>
    do rest <- checked_sub totalBalance splitAmount;
    transfer (ChannelData.participant2 channel) rest >>
    emit (ChannelClosed channelId splitAmount rest))).

(** *** Views *)

Definition getChannel (channelId : bytes32) : M ChannelData.t :=
  gets (channel_of channelId).

Definition isValidSignature (channelId : bytes32)
  (nonce balance1 balance2 : uint256) (signature : bytes) (signer : address)
  : M bool :=
  let update := StateUpdate.mk channelId nonce balance1 balance2 [] [] in
  let messageHash := _getStateUpdateHash update in
  _isValidSignature messageHash signature signer.

(** *** Administration, relaying and fees *)

Definition setYellowNetworkOracle (env : Env) (_oracle : address) : M unit :=
  onlyOwner env (
    modify (set_yellowNetworkOracle _oracle) >>
    emit (YellowNetworkOracleUpdated _oracle)).

Definition setRelayerAuthorization (env : Env) (relayer : address)
  (authorized : bool) : M unit :=
  onlyOwner env (
    modify (set_authorizedRelayers (fun m => mset m relayer authorized)) >>
    emit (RelayerAuthorized relayer authorized)).

Definition updateFees (env : Env) (_channelFee _relayerFee : uint256)
  : M unit :=
  onlyOwner env (
    modify (set_fees _channelFee _relayerFee) >>
    emit (FeesUpdated _channelFee _relayerFee)).

Definition relayHash (update : StateUpdate.t) (relayer : address) : bytes32 :=
  keccak256 (encodePacked
    [abi_bytes32 (StateUpdate.channelId update);
     abi_uint256 (StateUpdate.nonce update);
     abi_address relayer]).

Definition relayTransaction (update : StateUpdate.t) (relayer : address)
  (relayerSignature : bytes) : M unit :=
  do a <- gets (authorized relayer);
  require a "Unauthorized relayer" >>
  do ok <- _isValidSignature (relayHash update relayer) relayerSignature
             relayer;
  require ok "Invalid relayer signature" >>
  updateChannel update >>
  do fee <- gets relayerFee;
  transfer relayer fee.

Definition withdrawFees (env : Env) : M unit :=
  onlyOwner env (nonReentrant (
    do balance <- gets this_balance;
    require (0 <? balance) "No fees to withdraw" >>
    do o <- gets owner;
    transfer o balance)).

Definition emergencyWithdraw (env : Env) (channelId : bytes32) : M unit :=
  onlyOwner env (
    do channel <- gets (channel_of channelId);
    require (negb (ChannelData.isActive channel)) "Channel still active" >>
    do totalBalance <- checked_add (ChannelData.balance1 channel)
                                   (ChannelData.balance2 channel);
    when (0 <? totalBalance) (
      transfer (ChannelData.participant1 channel)
               (ChannelData.balance1 channel) >>
      transfer (ChannelData.participant2 channel)
               (ChannelData.balance2 channel) >>
      modify (update_channel channelId
        (fun c => with_balances 0 (ChannelData.balance2 c) c)) >>
      modify (update_channel channelId
        (fun c => with_balances (ChannelData.balance1 c) 0 c)))).

(** [Ownable] *)
Definition transferOwnership (env : Env) (newOwner : address) : M unit :=
  onlyOwner env (
    require (negb (newOwner =? 0)) "Ownable: new owner is the zero address" >>
    do old <- gets owner;
    modify (set_owner newOwner) >>
    emit (OwnershipTransferred old newOwner)).

Definition renounceOwnership (env : Env) : M unit :=
  onlyOwner env (
    do old <- gets owner;
    modify (set_owner 0) >>
    emit (OwnershipTransferred old 0)).

(** *** Transactions

    Every state-changing entry point of the deployed contract, and the
    storages that a sequence of transactions can produce from deployment. *)

Inductive Call :=
| OpenChannel (value : uint256) (participant1 participant2 : address)
    (amount1 amount2 timeout : uint256)
| UpdateChannel (update : StateUpdate.t)
| CloseChannel (channelId : bytes32) (finalUpdate : StateUpdate.t)
| DisputeChannel (channelId : bytes32)
| ResolveDispute (channelId : bytes32) (update : StateUpdate.t)
| WithdrawTimelock (channelId : bytes32)
| SetYellowNetworkOracle (_oracle : address)
| SetRelayerAuthorization (relayer : address) (authorized : bool)
| UpdateFees (_channelFee _relayerFee : uint256)
| RelayTransaction (update : StateUpdate.t) (relayer : address)
    (relayerSignature : bytes)
| WithdrawFees
| EmergencyWithdraw (channelId : bytes32)
| TransferOwnership (newOwner : address)
| RenounceOwnership.

Definition dispatch (env : Env) (c : Call) : M unit :=
  match c with
  | OpenChannel v p1 p2 a1 a2 t => openChannel env v p1 p2 a1 a2 t >> ret tt
  | UpdateChannel u => updateChannel u
  | CloseChannel id u => closeChannel env id u
  | DisputeChannel id => disputeChannel env id
  | ResolveDispute id u => resolveDispute env id u
  | WithdrawTimelock id => withdrawTimelock env id
  | SetYellowNetworkOracle o => setYellowNetworkOracle env o
  | SetRelayerAuthorization r a => setRelayerAuthorization env r a
  | UpdateFees cf rf => updateFees env cf rf
  | RelayTransaction u r s => relayTransaction u r s
  | WithdrawFees => withdrawFees env
  | EmergencyWithdraw id => emergencyWithdraw env id
  | TransferOwnership o => transferOwnership env o
  | RenounceOwnership => renounceOwnership env
  end.

(** The storage after the transactions of [txs], oldest first. *)
Definition run (txs : list (Env * Call)) (st : State) : State :=
  fold_left (fun s tx => exec (dispatch (fst tx) (snd tx)) s) txs st.

Inductive reachable : State -> Prop :=
| reachable_deployed deployer oracle :
    reachable (constructor deployer oracle)
| reachable_step st env c :
    reachable st -> reachable (exec (dispatch env c) st).

(** *** Predicates used by the statements *)

(** [signature] is a signature of [signer] over [messageHash], as
    [_isValidSignature] checks it. *)
Definition verifies (messageHash : bytes32) (signature : bytes)
  (signer : address) : Prop :=
  recover (toEthSignedMessageHash messageHash) signature = Some signer.

(** The caller is one of the two participants of the channel. *)
Definition is_participant (env : Env) (c : ChannelData.t) : bool :=
  (msg_sender env =? ChannelData.participant1 c)
  || (msg_sender env =? ChannelData.participant2 c).

(** A [transfer] of [amount] to [to] goes through in [st]. *)
Definition payable_now (to : address) (amount : uint256) (st : State) : Prop :=
  amount <= this_balance st /\ to <> this /\ receives to = true.

(** The full validation of [updateChannel], as a proposition. *)
Definition valid_update (update : StateUpdate.t) (st : State) : Prop :=
  let channel := channel_of (StateUpdate.channelId update) st in
  ChannelData.isActive channel = true
  /\ inDispute_of (StateUpdate.channelId update) st = false
  /\ ChannelData.nonce channel < StateUpdate.nonce update
  /\ StateUpdate.balance1 update + StateUpdate.balance2 update <= MAX_UINT256
  /\ StateUpdate.balance1 update + StateUpdate.balance2 update = total channel
  /\ verifies (_getStateUpdateHash update) (StateUpdate.signature1 update)
       (ChannelData.participant1 channel)
  /\ verifies (_getStateUpdateHash update) (StateUpdate.signature2 update)
       (ChannelData.participant2 channel).

(** The storage an accepted update leaves. *)
Definition apply_update (update : StateUpdate.t) (st : State) : State :=
  log (ChannelUpdated (StateUpdate.channelId update) (StateUpdate.nonce update)
         (StateUpdate.balance1 update) (StateUpdate.balance2 update))
      (update_channel (StateUpdate.channelId update)
         (with_state (StateUpdate.balance1 update)
            (StateUpdate.balance2 update) (StateUpdate.nonce update)) st).

(** The four ways an update reaches [updateChannel]. *)
Inductive Route :=
| Direct
| Relayed (relayer : address) (relayerSignature : bytes)
| FinalUpdate (env : Env) (channelId : bytes32)
| Resolution (env : Env) (channelId : bytes32).

Definition submit (route : Route) (update : StateUpdate.t) : M unit :=
  match route with
  | Direct => updateChannel update
  | Relayed relayer relayerSignature =>
      relayTransaction update relayer relayerSignature
  | FinalUpdate env channelId => closeChannel env channelId update
  | Resolution env channelId => resolveDispute env channelId update
  end.

(** [closeChannel] hands its final update to [updateChannel] only when the
    update's nonce is positive; the other routes always do. *)
Definition carries (route : Route) (update : StateUpdate.t) : Prop :=
  match route with
  | FinalUpdate _ _ => 0 < StateUpdate.nonce update
  | _ => True
  end.

(** The storage after the conditional payout of [closeChannel]. *)
Definition pay_if_positive (to : address) (amount : uint256) (st : State)
  : State :=
  if 0 <? amount then pay to amount st else st.

(** The storage [withdrawTimelock] leaves: the channel closed, the dispute
    cleared, the total split in two. *)
Definition timelock_settled (channelId : bytes32) (st : State) : State :=
  let channel := channel_of channelId st in
  let totalBalance := total channel in
  let splitAmount := totalBalance / 2 in
  log (ChannelClosed channelId splitAmount (totalBalance - splitAmount))
    (pay (ChannelData.participant2 channel) (totalBalance - splitAmount)
       (pay (ChannelData.participant1 channel) splitAmount
          (set_inDispute (fun m => mset m channelId false)
             (update_channel channelId (with_isActive false) st)))).

(** Both participants of the channel take plain ether transfers. *)
Definition participants_receive (c : ChannelData.t) : Prop :=
  (ChannelData.participant1 c <> this
   /\ receives (ChannelData.participant1 c) = true)
  /\ (ChannelData.participant2 c <> this
      /\ receives (ChannelData.participant2 c) = true).

(** The storage [emergencyWithdraw] leaves when there is a balance to pay. *)
Definition emergency_paid (channelId : bytes32) (st : State) : State :=
  let channel := channel_of channelId st in
  update_channel channelId (with_balances 0 0)
    (pay (ChannelData.participant2 channel) (ChannelData.balance2 channel)
       (pay (ChannelData.participant1 channel) (ChannelData.balance1 channel)
          st)).

(** A flagged dispute always concerns an active channel. *)
Definition disputes_are_active (st : State) : Prop :=
  forall id, inDispute_of id st = true ->
             ChannelData.isActive (channel_of id st) = true.

(** The identifier [openChannel] computes, and the storages that
    [openChannel] and [disputeChannel] leave. *)
Definition channel_id (participant1 participant2 : address) (env : Env)
  : bytes32 :=
  keccak256 (encodePacked
    [abi_address participant1; abi_address participant2;
     abi_uint256 (block_timestamp env); abi_uint256 (block_number env)]).

Definition channel_opened (env : Env) (value : uint256)
  (participant1 participant2 : address) (amount1 amount2 timeout : uint256)
  (st : State) : State :=
  let channelId := channel_id participant1 participant2 env in
  log (ChannelOpened channelId participant1 participant2 amount1 amount2)
    (set_channels (fun m => mset m channelId
       (ChannelData.mk participant1 participant2 amount1 amount2 0 timeout
          true))
       (credit value st)).

Definition dispute_raised (env : Env) (channelId : bytes32) (st : State)
  : State :=
  let deadline := block_timestamp env + DISPUTE_TIMEOUT in
  log (ChannelDisputed channelId (msg_sender env) deadline)
    (set_disputeTimeouts (fun m => mset m channelId deadline)
       (set_inDispute (fun m => mset m channelId true) st)).
(** The same update carrying other signatures. *)
Definition with_signatures (signature1 signature2 : bytes)
  (update : StateUpdate.t) : StateUpdate.t :=
  StateUpdate.mk (StateUpdate.channelId update) (StateUpdate.nonce update)
    (StateUpdate.balance1 update) (StateUpdate.balance2 update)
    signature1 signature2.

(** The contract's ether balance is a [uint256]. *)
Definition balance_is_uint256 (st : State) : Prop :=
  this_balance st <= MAX_UINT256.

(** What [closeChannel] pays out for a channel record. *)
Definition payout (c : ChannelData.t) : list (address * uint256) :=
  (if 0 <? ChannelData.balance1 c
   then [(ChannelData.participant1 c, ChannelData.balance1 c)] else [])
  ++ (if 0 <? ChannelData.balance2 c
      then [(ChannelData.participant2 c, ChannelData.balance2 c)] else []).

(** The ether a call brings with it: only [openChannel] is payable. *)
Definition call_value (c : Call) : uint256 :=
  match c with
  | OpenChannel value _ _ _ _ _ => value
  | _ => 0
  end.

(** The ether the contract has sent out so far. *)
Definition paid (st : State) : N :=
  fold_right (fun p acc => snd p + acc) 0 (payments st).

(** What [closeChannel] leaves once the final update, if any, is applied. *)
Definition channel_closed (channelId : bytes32) (st : State) : State :=
  let channel := channel_of channelId st in
  log (ChannelClosed channelId (ChannelData.balance1 channel)
         (ChannelData.balance2 channel))
    (pay_if_positive (ChannelData.participant2 channel)
       (ChannelData.balance2 channel)
       (pay_if_positive (ChannelData.participant1 channel)
          (ChannelData.balance1 channel)
          (update_channel channelId (with_isActive false) st))).

(** The two payouts of [closeChannel] go through: the contract holds the
    sum, and a participant with a positive balance takes the transfer. *)
Definition payout_possible (channelId : bytes32) (st : State) : Prop :=
  let channel := channel_of channelId st in
  total channel <= this_balance st
  /\ (0 < ChannelData.balance1 channel ->
      ChannelData.participant1 channel <> this
      /\ receives (ChannelData.participant1 channel) = true)
  /\ (0 < ChannelData.balance2 channel ->
      ChannelData.participant2 channel <> this
      /\ receives (ChannelData.participant2 channel) = true).

(** What [resolveDispute] leaves once the update is applied. *)
Definition dispute_cleared (channelId : bytes32) (st : State) : State :=
  set_disputeTimeouts (fun m => mset m channelId 0)
    (set_inDispute (fun m => mset m channelId false) st).

(** The transition relation of the contract: when a call goes through and
    what storage it leaves. *)
Definition effect (env : Env) (c : Call) (st st' : State) : Prop :=
  match c with
  | OpenChannel value p1 p2 amount1 amount2 timeout =>
      p1 <> p2 /\ p1 <> 0 /\ p2 <> 0
      /\ MIN_TIMEOUT <= timeout <= MAX_TIMEOUT
      /\ amount1 + amount2 + channelFee st <= MAX_UINT256
      /\ amount1 + amount2 + channelFee st <= value
      /\ st' = channel_opened env value p1 p2 amount1 amount2 timeout st
  | UpdateChannel update =>
      valid_update update st /\ st' = apply_update update st
  | CloseChannel channelId finalUpdate =>
      is_participant env (channel_of channelId st) = true
      /\ ChannelData.isActive (channel_of channelId st) = true
      /\ inDispute_of channelId st = false
      /\ exists st1,
           ((0 < StateUpdate.nonce finalUpdate
             /\ valid_update finalUpdate st
             /\ st1 = apply_update finalUpdate st)
            \/ (StateUpdate.nonce finalUpdate = 0 /\ st1 = st))
           /\ payout_possible channelId st1
           /\ st' = channel_closed channelId st1
  | DisputeChannel channelId =>
      is_participant env (channel_of channelId st) = true
      /\ ChannelData.isActive (channel_of channelId st) = true
      /\ inDispute_of channelId st = false
      /\ block_timestamp env + DISPUTE_TIMEOUT <= MAX_UINT256
      /\ st' = dispute_raised env channelId st
  | ResolveDispute channelId update =>
      is_participant env (channel_of channelId st) = true
      /\ inDispute_of channelId st = true
      /\ block_timestamp env <= disputeTimeout_of channelId st
      /\ valid_update update st
      /\ st' = dispute_cleared channelId (apply_update update st)
  | WithdrawTimelock channelId =>
      is_participant env (channel_of channelId st) = true
      /\ inDispute_of channelId st = true
      /\ disputeTimeout_of channelId st < block_timestamp env
      /\ total (channel_of channelId st) <= MAX_UINT256
      /\ total (channel_of channelId st) <= this_balance st
      /\ participants_receive (channel_of channelId st)
      /\ st' = timelock_settled channelId st
  | SetYellowNetworkOracle _oracle =>
      msg_sender env = owner st
      /\ st' = log (YellowNetworkOracleUpdated _oracle)
                 (set_yellowNetworkOracle _oracle st)
  | SetRelayerAuthorization relayer a =>
      msg_sender env = owner st
      /\ st' = log (RelayerAuthorized relayer a)
                 (set_authorizedRelayers (fun m => mset m relayer a) st)
  | UpdateFees cf rf =>
      msg_sender env = owner st
      /\ st' = log (FeesUpdated cf rf) (set_fees cf rf st)
  | RelayTransaction update relayer relayerSignature =>
      authorized relayer st = true
      /\ verifies (relayHash update relayer) relayerSignature relayer
      /\ valid_update update st
      /\ payable_now relayer (relayerFee st) st
      /\ st' = pay relayer (relayerFee st) (apply_update update st)
  | WithdrawFees =>
      msg_sender env = owner st
      /\ 0 < this_balance st
      /\ owner st <> this /\ receives (owner st) = true
      /\ st' = pay (owner st) (this_balance st) st
  | EmergencyWithdraw channelId =>
      msg_sender env = owner st
      /\ ChannelData.isActive (channel_of channelId st) = false
      /\ ((total (channel_of channelId st) = 0 /\ st' = st)
          \/ (0 < total (channel_of channelId st)
              /\ total (channel_of channelId st) <= MAX_UINT256
              /\ total (channel_of channelId st) <= this_balance st
              /\ participants_receive (channel_of channelId st)
              /\ st' = emergency_paid channelId st))
  | TransferOwnership newOwner =>
      msg_sender env = owner st /\ newOwner <> 0
      /\ st' = log (OwnershipTransferred (owner st) newOwner)
                 (set_owner newOwner st)
  | RenounceOwnership =>
      msg_sender env = owner st
      /\ st' = log (OwnershipTransferred (owner st) 0) (set_owner 0 st)
  end.

(** A stored channel record as [openChannel] admits it. *)
Definition channel_wf (c : ChannelData.t) : Prop :=
  ChannelData.participant1 c <> ChannelData.participant2 c
  /\ ChannelData.participant1 c <> 0
  /\ ChannelData.participant2 c <> 0
  /\ MIN_TIMEOUT <= ChannelData.timeout c <= MAX_TIMEOUT
  /\ total c <= MAX_UINT256.

(** The call is an [openChannel] that computes the identifier [id]. *)
Definition opens (env : Env) (c : Call) (id : bytes32) : Prop :=
  match c with
  | OpenChannel _ p1 p2 _ _ _ => channel_id p1 p2 env = id
  | _ => False
  end.

(** The call is one of the two that clear the dispute flag of [id]:
    [withdrawTimelock] for [id], or [resolveDispute] for [id] carrying an
    update of another channel. *)
Definition ends_dispute (c : Call) (id : bytes32) : Prop :=
  match c with
  | WithdrawTimelock channelId => channelId = id
  | ResolveDispute channelId update =>
      channelId = id /\ StateUpdate.channelId update <> id
  | _ => False
  end.

(** [isValidSignature] asked about the four signed fields of [update]. *)
Definition signature_view (update : StateUpdate.t) (signature : bytes)
  (signer : address) : M bool :=
  isValidSignature (StateUpdate.channelId update) (StateUpdate.nonce update)
    (StateUpdate.balance1 update) (StateUpdate.balance2 update) signature
    signer.

(** The number of bytes a value takes in [abi.encodePacked]. *)
Definition packed_width (v : AbiValue) : nat :=
  match v with
  | abi_address _ => 20%nat
  | abi_uint256 _ => 32%nat
  | abi_bytes32 _ => 32%nat
  end.

(** The value is within the range of its Solidity type. *)
Definition in_range (v : AbiValue) : Prop :=
  match v with
  | abi_address a => a < 2 ^ 160
  | abi_uint256 v => v <= MAX_UINT256
  | abi_bytes32 v => v <= MAX_UINT256
  end.

(** The two values have the same Solidity type. *)
Definition same_type (v w : AbiValue) : Prop :=
  match v, w with
  | abi_address _, abi_address _ => True
  | abi_uint256 _, abi_uint256 _ => True
  | abi_bytes32 _, abi_bytes32 _ => True
  | _, _ => False
  end.

(** The outcome [r] with the stored oracle address replaced. *)
Definition with_oracle {A} (_oracle : address) (r : Result (A * State))
  : Result (A * State) :=
  match r with
  | Ok (a, st) => Ok (a, set_yellowNetworkOracle _oracle st)
  | Err e => Err e
  end.

(** A computation that does not depend on the stored oracle address. *)
Definition oracle_blind {A} (m : M A) : Prop :=
  forall _oracle st,
    m (set_yellowNetworkOracle _oracle st) = with_oracle _oracle (m st).

(** The ether a call sends out when it goes through: [closeChannel],
    [withdrawTimelock] and [emergencyWithdraw] the balance sum stored for
    the channel before the call, [relayTransaction] the relayer fee,
    [withdrawFees] the whole balance of the contract. *)
Definition outflow (c : Call) (st : State) : uint256 :=
  match c with
  | CloseChannel channelId _ => total (channel_of channelId st)
  | WithdrawTimelock channelId => total (channel_of channelId st)
  | EmergencyWithdraw channelId => total (channel_of channelId st)
  | RelayTransaction _ _ _ => relayerFee st
  | WithdrawFees => this_balance st
  | _ => 0
  end.

End StateChannel.

(** ** A concrete platform and scenario

    A small platform on which the contract runs by computation, and the
    storages of a scenario played on it: deployment, one channel between
    [alice] and [bob] holding one ether each, then a dispute, a sweep of the
    contract balance, a normal close, a change of fees, and a channel whose
    second participant is a contract. *)

Module Fixture.

Definition toy_keccak256 (data : bytes) : bytes32 :=
  fold_left (fun acc b => (acc * 257 + Byte.to_N b + 1) mod 1000000007) data 0.

Definition from_be (data : bytes) : N :=
  fold_left (fun acc b => acc * 256 + Byte.to_N b) data 0.

(** A signature is the signed hash plus the signer, on 32 bytes. *)
Definition toy_recover (hash : bytes32) (signature : bytes) : option address :=
  if (length signature =? 32)%nat && (hash <? from_be signature)
  then Some (from_be signature - hash)
  else None.

Definition admin : address := 1.
Definition oracle : address := 2.
Definition alice : address := 11.
Definition bob : address := 12.
Definition mallory : address := 13.
Definition carol : address := 21.

(** A contract without a receive function, as the lending-circle contract,
    which opens a channel for each member with itself as second
    participant. *)
Definition circle : address := 30.

(** Every account but [circle] accepts ether. *)
Definition platform : Platform :=
  {| keccak256 := toy_keccak256;
     recover := toy_recover;
     this := 1000;
     receives := fun a => negb (a =? circle) |}.

#[local] Existing Instance platform.

Definition sign (signer : address) (messageHash : bytes32) : bytes :=
  be_bytes 32 (toEthSignedMessageHash messageHash + signer).

(** A block at time [t], and a call of [sender] in it. *)
Definition at_time (t : uint256) (sender : address) : Env :=
  mkEnv sender t 50.

Definition t0 : uint256 := 1700000000.

Definition cid : bytes32 :=
  keccak256 (encodePacked
    [abi_address alice; abi_address bob; abi_uint256 t0; abi_uint256 50]).

(** An update of channel [id] signed by [alice] and [bob]. *)
Definition signed (id : bytes32) (nonce balance1 balance2 : uint256)
  : StateUpdate.t :=
  let h := _getStateUpdateHash
             (StateUpdate.mk id nonce balance1 balance2 [] []) in
  StateUpdate.mk id nonce balance1 balance2 (sign alice h) (sign bob h).

Definition update1 : StateUpdate.t :=
  signed cid 1 (ether / 2) (3 * ether / 2).

Definition no_update : StateUpdate.t := StateUpdate.mk 0 0 0 0 [] [].

Definition relay_signature (update : StateUpdate.t) (relayer : address)
  : bytes :=
  sign relayer (relayHash update relayer).

Definition open_call : Call :=
  OpenChannel (2 * ether + ether / 1000) alice bob ether ether 7200.

Definition deployed : State := constructor admin oracle.

Definition opened : State :=
  run [(at_time t0 admin, SetRelayerAuthorization carol true);
       (at_time t0 alice, open_call)] deployed.

Definition disputed : State :=
  run [(at_time (t0 + 10) alice, DisputeChannel cid)] opened.

Definition swept : State :=
  run [(at_time (t0 + 20) admin, WithdrawFees)] opened.

Definition disputed_swept : State :=
  run [(at_time (t0 + 20) admin, WithdrawFees)] disputed.

Definition closed : State :=
  run [(at_time (t0 + 30) alice, CloseChannel cid no_update)] opened.

(** The relayer fee raised above what the contract holds. *)
Definition high_fee : State :=
  run [(at_time (t0 + 20) admin, UpdateFees (ether / 1000) (3 * ether))]
    opened.

(** A second channel, opened by [circle] for its member [alice], then
    disputed, or closed by [alice]. *)
Definition circle_cid : bytes32 :=
  keccak256 (encodePacked
    [abi_address alice; abi_address circle; abi_uint256 (t0 + 1);
     abi_uint256 50]).

Definition with_circle : State :=
  run [(at_time (t0 + 1) circle,
        OpenChannel (ether + ether / 1000) alice circle ether 0 7200)]
    opened.

Definition circle_disputed : State :=
  run [(at_time (t0 + 10) alice, DisputeChannel circle_cid)] with_circle.

Definition circle_closed : State :=
  run [(at_time (t0 + 30) alice, CloseChannel circle_cid no_update)]
    with_circle.

(** A second channel, between [carol] and [bob], opened before the first is
    closed: its deposit is what the emergency path pays out. *)
Definition two_channels : State :=
  run [(at_time (t0 + 5) carol,
        OpenChannel (2 * ether + ether / 1000) carol bob ether ether 7200)]
    opened.

(** An update of channel [id] signed by [signer1] and [signer2]. *)
Definition signed_by (signer1 signer2 : address) (id : bytes32)
  (nonce balance1 balance2 : uint256) : StateUpdate.t :=
  let h := _getStateUpdateHash
             (StateUpdate.mk id nonce balance1 balance2 [] []) in
  StateUpdate.mk id nonce balance1 balance2 (sign signer1 h) (sign signer2 h).

(** The channel of [carol] and [bob] in [two_channels], and an update of
    it. *)
Definition cid2 : bytes32 :=
  keccak256 (encodePacked
    [abi_address carol; abi_address bob; abi_uint256 (t0 + 5);
     abi_uint256 50]).

Definition update2 : StateUpdate.t :=
  signed_by carol bob cid2 3 (2 * ether) 0.

(** [two_channels] with the first channel disputed by [alice]. *)
Definition two_channels_disputed : State :=
  run [(at_time (t0 + 10) alice, DisputeChannel cid)] two_channels.

(** The first channel disputed in the block that opened it. *)
Definition disputed_at_once : State :=
  run [(at_time t0 bob, DisputeChannel cid)] opened.

(** [two_channels] with the first channel closed by [alice] at the opening
    balances. *)
Definition two_channels_closed : State :=
  run [(at_time (t0 + 30) alice, CloseChannel cid no_update)] two_channels.

(** [disputed] after the deadline: [bob] takes the timeout split, then
    [carol] opens a channel with [bob]. *)
Definition timelock_paid : State :=
  run [(at_time (t0 + 10 + DISPUTE_TIMEOUT + 1) bob, WithdrawTimelock cid)]
    disputed.

Definition deposit_after : list (Env * Call) :=
  [(at_time (t0 + 10 + DISPUTE_TIMEOUT + 5) carol,
    OpenChannel (2 * ether + ether / 1000) carol bob ether ether 7200)].

End Fixture.

(** * Properties *)

(** ** Mappings and storage accessors *)

Lemma mget_mset {V} `{Zero V} (m : gmap N V) (k k' : N) (v : V) :
  mget (mset m k v) k' = if k =? k' then v else mget m k'.
Proof.
  unfold mget, mset. destruct (N.eqb_spec k k') as [->|Hne].
  - by rewrite lookup_insert_eq.
  - by rewrite lookup_insert_ne.
Qed.

Lemma mget_mset_eq {V} `{Zero V} (m : gmap N V) (k : N) (v : V) :
  mget (mset m k v) k = v.
Proof. by rewrite mget_mset, N.eqb_refl. Qed.

Lemma mset_mset {V} (m : gmap N V) (k : N) (v w : V) :
  mset (mset m k v) k w = mset m k w.
Proof. unfold mset. apply insert_insert_eq. Qed.

Lemma channel_of_update_channel id id' f st :
  channel_of id' (update_channel id f st)
  = if id =? id' then f (channel_of id st) else channel_of id' st.
Proof. unfold channel_of, update_channel. simpl. apply mget_mset. Qed.

(** ** Proof automation for the monadic code *)

Ltac unfold_monad :=
  unfold onlyParticipant, onlyActive, notInDispute, onlyOwner, nonReentrant,
    _isValidSignature, transfer, emit, when, require, checked_add,
    checked_sub, modify, gets, ret, fail, bind in *.

(** Follow the only path of a run that ends in [Ok]. *)
Ltac branches H :=
  repeat match type of H with
  | context [if ?c then _ else _] =>
      destruct c eqn:?; simpl in H; try discriminate H
  | context [match ?x with Some _ => _ | None => _ end] =>
      destruct x eqn:?; simpl in H; try discriminate H
  | context [match ?x with Ok _ => _ | Err _ => _ end] =>
      lazymatch x with
      | Ok _ => fail
      | Err _ => fail
      | context [if _ then _ else _] => fail
      | context [match _ with Some _ => _ | None => _ end] => fail
      | _ => destruct x as [[? ?]|?] eqn:?; simpl in H; try discriminate H
      end
  end.

(** Boolean tests in the context, as propositions. *)
Ltac props :=
  repeat match goal with
  | H : (_ && _) = true |- _ => apply andb_true_iff in H; destruct H
  | H : (_ || _) = false |- _ => apply orb_false_iff in H; destruct H
  | H : negb _ = true |- _ => apply negb_true_iff in H
  | H : negb _ = false |- _ => apply negb_false_iff in H
  | H : (_ <? _) = true |- _ => apply N.ltb_lt in H
  | H : (_ <? _) = false |- _ => apply N.ltb_ge in H
  | H : (_ <=? _) = true |- _ => apply N.leb_le in H
  | H : (_ <=? _) = false |- _ => apply N.leb_gt in H
  | H : (_ =? _) = true |- _ => apply N.eqb_eq in H
  | H : (_ =? _) = false |- _ => apply N.eqb_neq in H
  end.

Ltac solve_test :=
  repeat match goal with
  | |- (_ && _) = true => apply andb_true_iff; split
  | |- (_ || _) = false => apply orb_false_iff; split
  | |- negb _ = true => apply negb_true_iff
  | |- negb _ = false => apply negb_false_iff
  | |- (_ <? _) = true => apply N.ltb_lt
  | |- (_ <? _) = false => apply N.ltb_ge
  | |- (_ <=? _) = true => apply N.leb_le
  | |- (_ <=? _) = false => apply N.leb_gt
  | |- (_ =? _) = true => apply N.eqb_eq
  | |- (_ =? _) = false => apply N.eqb_neq
  end;
  first [assumption | lia | congruence].

(** Split the conjunctions of the goal, leaving defined predicates folded. *)
Ltac splits := repeat match goal with |- _ /\ _ => split end.

Ltac storage :=
  unfold channel_of, inDispute_of, disputeTimeout_of, authorized,
    update_channel, set_channels, set_inDispute, set_disputeTimeouts,
    set_authorizedRelayers, set_fees, set_owner, set_yellowNetworkOracle,
    pay, credit, log, total, with_isActive, with_state, with_balances in *;
  simpl in *;
  rewrite ?mget_mset_eq, ?mset_mset in *;
  simpl in *.

(** Decide the outermost test of the goal from the context. *)
Ltac take_branch :=
  match goal with
  | |- context [if ?c then _ else _] =>
      first
        [ let E := fresh in assert (E : c = true) by (storage; solve_test);
          rewrite E; clear E
        | let E := fresh in assert (E : c = false) by (storage; solve_test);
          rewrite E; clear E ];
      simpl
  end.

Section Properties.

Context `{Platform}.

Lemma transfer_Ok to amount st r :
  transfer to amount st = Ok r
  <-> payable_now to amount st /\ r = (tt, pay to amount st).
Proof.
  unfold transfer, payable_now.
  destruct (N.leb_spec amount (this_balance st)); simpl;
    [destruct (N.eqb_spec to this); simpl; [|destruct (receives to)]|];
    split; try (intros [(? & ? & ?) ?]); try intros [= <-]; subst; auto;
    try discriminate; try lia; congruence.
Qed.

(** ** [updateChannel] *)

Lemma updateChannel_Ok update st r :
  updateChannel update st = Ok r
  <-> valid_update update st /\ r = (tt, apply_update update st).
Proof.
  unfold updateChannel, valid_update, apply_update, total, verifies.
  unfold_monad. set (channel := channel_of _ st). split.
  - intros Hrun. branches Hrun. props. subst.
    injection Hrun as <-. repeat split; auto.
  - intros [(Ha & Hd & Hn & Hmax & Hsum & Hs1 & Hs2) ->]. subst channel.
    rewrite Ha, Hd, Hs1, Hs2. simpl. rewrite !N.eqb_refl.
    take_branch. take_branch. take_branch. take_branch. reflexivity.
Qed.

Lemma updateChannel_accepts update st :
  valid_update update st ->
  updateChannel update st = Ok (tt, apply_update update st).
Proof. intros Hv. by apply updateChannel_Ok. Qed.

Lemma updateChannel_Ok_inv update st u st' :
  updateChannel update st = Ok (u, st') ->
  valid_update update st /\ st' = apply_update update st.
Proof.
  intros Hrun. apply updateChannel_Ok in Hrun as [Hv [= -> ->]]. auto.
Qed.

(** What an accepted update changes and what it leaves. *)
Lemma channel_of_apply_update update st id :
  channel_of id (apply_update update st)
  = if StateUpdate.channelId update =? id
    then with_state (StateUpdate.balance1 update)
           (StateUpdate.balance2 update) (StateUpdate.nonce update)
           (channel_of (StateUpdate.channelId update) st)
    else channel_of id st.
Proof. unfold apply_update. apply channel_of_update_channel. Qed.

Lemma total_apply_update update st :
  valid_update update st ->
  total (channel_of (StateUpdate.channelId update) (apply_update update st))
  = total (channel_of (StateUpdate.channelId update) st).
Proof.
  intros (_ & _ & _ & _ & Hsum & _).
  rewrite channel_of_apply_update, N.eqb_refl. exact Hsum.
Qed.

(** ** [relayTransaction] *)

Lemma relayTransaction_Ok update relayer sig st r :
  relayTransaction update relayer sig st = Ok r
  <-> authorized relayer st = true
      /\ verifies (relayHash update relayer) sig relayer
      /\ valid_update update st
      /\ payable_now relayer (relayerFee st) st
      /\ r = (tt, pay relayer (relayerFee st) (apply_update update st)).
Proof.
  unfold relayTransaction, verifies, payable_now. unfold_monad. split.
  - intros Hrun. branches Hrun.
    match goal with
    | Hup : updateChannel _ _ = Ok _ |- _ =>
        apply updateChannel_Ok_inv in Hup as [Hv ->]
    end.
    simpl in *. props. subst. injection Hrun as <-. splits; auto.
  - intros (Ha & Hs & Hv & (Hbal & Hne & Hrc) & ->).
    rewrite Ha, Hs, N.eqb_refl. simpl.
    rewrite (updateChannel_accepts _ _ Hv). simpl.
    rewrite Hrc. take_branch. reflexivity.
Qed.

(** ** [closeChannel] *)

Lemma closeChannel_Ok_inv env channelId finalUpdate st u st' :
  closeChannel env channelId finalUpdate st = Ok (u, st') ->
  is_participant env (channel_of channelId st) = true
  /\ ChannelData.isActive (channel_of channelId st) = true
  /\ inDispute_of channelId st = false
  /\ exists st1,
       ((0 < StateUpdate.nonce finalUpdate
         /\ valid_update finalUpdate st
         /\ st1 = apply_update finalUpdate st)
        \/ (StateUpdate.nonce finalUpdate = 0 /\ st1 = st))
       /\ let channel := channel_of channelId st1 in
          total channel <= this_balance st1
          /\ st' = log (ChannelClosed channelId (ChannelData.balance1 channel)
                          (ChannelData.balance2 channel))
                     (pay_if_positive (ChannelData.participant2 channel)
                        (ChannelData.balance2 channel)
                        (pay_if_positive (ChannelData.participant1 channel)
                           (ChannelData.balance1 channel)
                           (update_channel channelId (with_isActive false)
                              st1))).
Proof.
  unfold closeChannel, is_participant, total, pay_if_positive.
  unfold_monad. intros Hrun.
  destruct (_ || _) eqn:Hp; simpl in Hrun; [|discriminate].
  destruct (ChannelData.isActive (channel_of channelId st)) eqn:Ha;
    simpl in Hrun; [|discriminate].
  destruct (inDispute_of channelId st) eqn:Hd; simpl in Hrun; [discriminate|].
  splits; auto.
  assert (Hpre : exists st1,
    ((0 < StateUpdate.nonce finalUpdate /\ valid_update finalUpdate st
      /\ st1 = apply_update finalUpdate st)
     \/ (StateUpdate.nonce finalUpdate = 0 /\ st1 = st))
    /\ (if 0 <? StateUpdate.nonce finalUpdate
        then updateChannel finalUpdate else fun s => Ok (tt, s)) st
       = Ok (tt, st1)).
  { revert Hrun. destruct (N.ltb_spec 0 (StateUpdate.nonce finalUpdate)).
    - destruct (updateChannel finalUpdate st) as [[[] s1]|e] eqn:Hup;
        [|discriminate].
      apply updateChannel_Ok_inv in Hup as [Hv ->]. eauto 10.
    - exists st. split; [right; split; [lia|]|]; reflexivity. }
  destruct Hpre as (st1 & Hst1 & Hup). rewrite Hup in Hrun.
  exists st1. split; [exact Hst1|]. clear Hup Hst1.
  rewrite !channel_of_update_channel, N.eqb_refl in Hrun. simpl in Hrun.
  set (channel := channel_of channelId st1) in *.
  destruct (N.ltb_spec 0 (ChannelData.balance1 channel));
    destruct (N.ltb_spec 0 (ChannelData.balance2 channel));
    simpl in Hrun; branches Hrun; props; injection Hrun as <- <-;
    simpl in *; split; auto; lia.
Qed.

(** ** [resolveDispute] *)

Lemma resolveDispute_Ok_inv env channelId update st u st' :
  resolveDispute env channelId update st = Ok (u, st') ->
  is_participant env (channel_of channelId st) = true
  /\ inDispute_of channelId st = true
  /\ block_timestamp env <= disputeTimeout_of channelId st
  /\ valid_update update st
  /\ st' = set_disputeTimeouts (fun m => mset m channelId 0)
             (set_inDispute (fun m => mset m channelId false)
                (apply_update update st)).
Proof.
  unfold resolveDispute, is_participant. unfold_monad. intros Hrun.
  branches Hrun.
  match goal with
  | Hup : updateChannel _ _ = Ok _ |- _ =>
      apply updateChannel_Ok_inv in Hup as [Hv ->]
  end.
  props. injection Hrun as <- <-. splits; auto.
Qed.

(** [resolveDispute] re-enters [updateChannel], whose [notInDispute] guard
    is tested while the dispute it is to settle is still flagged. *)
Lemma resolveDispute_same_channel env channelId update st :
  StateUpdate.channelId update = channelId ->
  exists e, resolveDispute env channelId update st = Err e.
Proof.
  intros <-.
  destruct (resolveDispute env (StateUpdate.channelId update) update st)
    as [[u st']|e] eqn:Hrun; [|eauto].
  apply resolveDispute_Ok_inv in Hrun as (_ & Hd & _ & Hv & _).
  destruct Hv as (_ & Hnd & _). congruence.
Qed.

(** ** [withdrawTimelock] *)

Lemma withdrawTimelock_Ok env channelId st r :
  withdrawTimelock env channelId st = Ok r
  <-> is_participant env (channel_of channelId st) = true
      /\ inDispute_of channelId st = true
      /\ disputeTimeout_of channelId st < block_timestamp env
      /\ total (channel_of channelId st) <= MAX_UINT256
      /\ total (channel_of channelId st) <= this_balance st
      /\ participants_receive (channel_of channelId st)
      /\ r = (tt, timelock_settled channelId st).
Proof.
  unfold withdrawTimelock, is_participant, timelock_settled,
    participants_receive.
  unfold_monad.
  assert (Hhalf : forall T, T / 2 <= T)
    by (intros T; apply N.Div0.div_le_upper_bound; lia).
  split.
  - intros Hrun. branches Hrun. props. storage. injection Hrun as <-.
    match goal with |- context [?a + ?b] => specialize (Hhalf (a + b)) end.
    splits; auto; lia.
  - intros (Hp & Hd & Ht & Hmax & Hbal & ((Hn1 & Hr1) & (Hn2 & Hr2)) & ->).
    rewrite Hp, Hd. simpl. storage.
    match goal with |- context [?a + ?b] => specialize (Hhalf (a + b)) end.
    repeat take_branch. storage. reflexivity.
Qed.

(** ** [withdrawFees] and [emergencyWithdraw] *)

Lemma withdrawFees_Ok env st r :
  withdrawFees env st = Ok r
  <-> msg_sender env = owner st
      /\ 0 < this_balance st
      /\ owner st <> this /\ receives (owner st) = true
      /\ r = (tt, pay (owner st) (this_balance st) st).
Proof.
  unfold withdrawFees. unfold_monad. split.
  - intros Hrun. branches Hrun. props. injection Hrun as <-. splits; auto.
  - intros (Hs & Hpos & Hne & Hrc & ->).
    repeat take_branch. reflexivity.
Qed.

Lemma emergencyWithdraw_Ok env channelId st r :
  0 < total (channel_of channelId st) ->
  emergencyWithdraw env channelId st = Ok r
  <-> msg_sender env = owner st
      /\ ChannelData.isActive (channel_of channelId st) = false
      /\ total (channel_of channelId st) <= MAX_UINT256
      /\ total (channel_of channelId st) <= this_balance st
      /\ participants_receive (channel_of channelId st)
      /\ r = (tt, emergency_paid channelId st).
Proof.
  unfold emergencyWithdraw, emergency_paid, participants_receive.
  intros Hpos. unfold_monad. split.
  - intros Hrun. branches Hrun; props; storage; try lia.
    injection Hrun as <-. splits; auto; lia.
  - intros (Hs & Ha & Hmax & Hbal & ((Hn1 & Hr1) & (Hn2 & Hr2)) & ->).
    simpl. repeat take_branch. storage. reflexivity.
Qed.

(** ** [openChannel] and [disputeChannel] *)

Lemma openChannel_Ok env value p1 p2 amount1 amount2 timeout st r :
  openChannel env value p1 p2 amount1 amount2 timeout st = Ok r
  <-> p1 <> p2 /\ p1 <> 0 /\ p2 <> 0
      /\ MIN_TIMEOUT <= timeout <= MAX_TIMEOUT
      /\ amount1 + amount2 + channelFee st <= MAX_UINT256
      /\ amount1 + amount2 + channelFee st <= value
      /\ r = (channel_id p1 p2 env,
              channel_opened env value p1 p2 amount1 amount2 timeout st).
Proof.
  unfold openChannel, channel_opened, channel_id. unfold_monad. split.
  - intros Hrun. branches Hrun. props. simpl in *.
    injection Hrun as <-. splits; auto; lia.
  - intros (Hne & Hz1 & Hz2 & [Hlo Hhi] & Hmax & Hval & ->).
    simpl. repeat take_branch. reflexivity.
Qed.

Lemma disputeChannel_Ok env channelId st r :
  disputeChannel env channelId st = Ok r
  <-> is_participant env (channel_of channelId st) = true
      /\ ChannelData.isActive (channel_of channelId st) = true
      /\ inDispute_of channelId st = false
      /\ block_timestamp env + DISPUTE_TIMEOUT <= MAX_UINT256
      /\ r = (tt, dispute_raised env channelId st).
Proof.
  unfold disputeChannel, is_participant, dispute_raised. unfold_monad. split.
  - intros Hrun. branches Hrun. props. storage.
    injection Hrun as <-. splits; auto.
  - intros (Hp & Ha & Hd & Hmax & ->).
    rewrite Hp, Ha, Hd. simpl. repeat take_branch. storage. reflexivity.
Qed.

(** ** Reachable storages *)

Lemma run_reachable txs st : reachable st -> reachable (run txs st).
Proof.
  revert st. induction txs as [|[env c] txs IH]; intros st Hst; simpl.
  - exact Hst.
  - apply IH. by apply reachable_step.
Qed.

Ltac frame_inv Hinv :=
  let id' := fresh "id'" in
  let Hd' := fresh "Hd'" in
  intros id' Hd'; pose proof (Hinv id') as Hid';
  storage; rewrite ?mget_mset; rewrite ?mget_mset in Hd';
  repeat match goal with
  | |- context [?a =? ?b] => destruct (N.eqb_spec a b); subst
  | _ : context [?a =? ?b] |- _ => destruct (N.eqb_spec a b); subst
  end;
  simpl in *; auto; try congruence.

Lemma apply_update_disputes_are_active update st :
  disputes_are_active st -> disputes_are_active (apply_update update st).
Proof. intros Hinv. unfold apply_update. frame_inv Hinv. Qed.

Lemma dispatch_disputes_are_active env c st u st' :
  dispatch env c st = Ok (u, st') ->
  disputes_are_active st -> disputes_are_active st'.
Proof.
  intros Hrun Hinv. destruct u. destruct c; simpl in Hrun.
  - (* openChannel *)
    unfold bind, ret in Hrun.
    destruct (openChannel _ _ _ _ _ _ _ st) as [[id st1]|e] eqn:Hopen;
      [|discriminate].
    injection Hrun as <-.
    apply openChannel_Ok in Hopen as (_ & _ & _ & _ & _ & _ & [= -> ->]).
    unfold channel_opened. frame_inv Hinv.
  - (* updateChannel *)
    apply updateChannel_Ok_inv in Hrun as [_ ->].
    by apply apply_update_disputes_are_active.
  - (* closeChannel *)
    apply closeChannel_Ok_inv in Hrun
      as (_ & _ & Hd & st1 & Hst1 & _ & ->).
    assert (Hinv1 : disputes_are_active st1 /\ inDispute_of channelId st1 = false).
    { destruct Hst1 as [(_ & _ & ->)|(_ & ->)]; [|auto].
      split; [by apply apply_update_disputes_are_active|exact Hd]. }
    destruct Hinv1 as [Hinv1 Hd1]. unfold pay_if_positive.
    destruct (0 <? _); destruct (0 <? _); frame_inv Hinv1.
  - (* disputeChannel *)
    apply disputeChannel_Ok in Hrun as (_ & Ha & _ & _ & [= ->]).
    unfold dispute_raised. frame_inv Hinv.
  - (* resolveDispute *)
    apply resolveDispute_Ok_inv in Hrun as (_ & _ & _ & _ & ->).
    unfold apply_update. frame_inv Hinv.
  - (* withdrawTimelock *)
    apply withdrawTimelock_Ok in Hrun as (_ & _ & _ & _ & _ & _ & [= ->]).
    unfold timelock_settled. frame_inv Hinv.
  - (* setYellowNetworkOracle *)
    unfold setYellowNetworkOracle in Hrun. unfold_monad. branches Hrun.
    injection Hrun as <-. exact Hinv.
  - (* setRelayerAuthorization *)
    unfold setRelayerAuthorization in Hrun. unfold_monad. branches Hrun.
    injection Hrun as <-. exact Hinv.
  - (* updateFees *)
    unfold updateFees in Hrun. unfold_monad. branches Hrun.
    injection Hrun as <-. exact Hinv.
  - (* relayTransaction *)
    apply relayTransaction_Ok in Hrun as (_ & _ & _ & _ & [= ->]).
    pose proof (apply_update_disputes_are_active update st Hinv) as Hinv1.
    exact Hinv1.
  - (* withdrawFees *)
    apply withdrawFees_Ok in Hrun as (_ & _ & _ & _ & [= ->]). exact Hinv.
  - (* emergencyWithdraw *)
    unfold emergencyWithdraw in Hrun. unfold_monad. branches Hrun;
      injection Hrun as <-; frame_inv Hinv.
  - (* transferOwnership *)
    unfold transferOwnership in Hrun. unfold_monad. branches Hrun.
    injection Hrun as <-. exact Hinv.
  - (* renounceOwnership *)
    unfold renounceOwnership in Hrun. unfold_monad. branches Hrun.
    injection Hrun as <-. exact Hinv.
Qed.

Lemma reachable_disputes_are_active st :
  reachable st -> disputes_are_active st.
Proof.
  induction 1 as [deployer oracle|st env c Hst IH].
  - intros id Hd. vm_compute in Hd. discriminate.
  - unfold exec. destruct (dispatch env c st) as [[u st']|e] eqn:Hrun; auto.
    eapply dispatch_disputes_are_active; eauto.
Qed.

(** ** Conservation, ordering and authorisation of updates *)

Lemma exec_Err {A} (call : M A) st e : call st = Err e -> exec call st = st.
Proof. unfold exec. by intros ->. Qed.

Lemma rejected {A} (call : M A) st :
  (forall r, call st <> Ok r) ->
  (exists e, call st = Err e) /\ exec call st = st.
Proof.
  intros Hno. destruct (call st) as [r|e] eqn:Hrun.
  - by destruct (Hno r).
  - split; [eauto|]. by apply (exec_Err call st e).
Qed.

Lemma channel_of_log e st id : channel_of id (log e st) = channel_of id st.
Proof. reflexivity. Qed.

Lemma channel_of_pay_if_positive to amount st id :
  channel_of id (pay_if_positive to amount st) = channel_of id st.
Proof. unfold pay_if_positive. by destruct (0 <? amount). Qed.

Lemma submit_Ok_inv route update st st' :
  carries route update ->
  submit route update st = Ok (tt, st') ->
  valid_update update st
  /\ total (channel_of (StateUpdate.channelId update) st')
     = total (channel_of (StateUpdate.channelId update)
                (apply_update update st)).
Proof.
  intros Hc Hrun. destruct route as [|relayer sig|env id|env id];
    simpl in Hc, Hrun.
  - apply updateChannel_Ok_inv in Hrun as [Hv ->]. auto.
  - apply relayTransaction_Ok in Hrun as (_ & _ & Hv & _ & [= ->]). auto.
  - apply closeChannel_Ok_inv in Hrun
      as (_ & _ & _ & st1 & [(_ & Hv & ->)|(Hz & _)] & _ & ->); [|lia].
    split; [exact Hv|].
    rewrite channel_of_log, !channel_of_pay_if_positive.
    rewrite channel_of_update_channel.
    destruct (N.eqb_spec id (StateUpdate.channelId update)) as [->|_];
      reflexivity.
  - apply resolveDispute_Ok_inv in Hrun as (_ & _ & _ & Hv & ->). auto.
Qed.

(** C2 (conservation). Through each of the four routes by which an update
    reaches [updateChannel] (directly, through [relayTransaction], as the
    final update of [closeChannel], through [resolveDispute]), an accepted
    update has the balance sum of the channel as it was just before, and the
    channel's balance sum is the same after the call; an update whose sum
    differs is rejected and the storage is unchanged. *)
Theorem C2_balance_sum_conserved route update st :
  carries route update ->
  let channelId := StateUpdate.channelId update in
  let proposed := StateUpdate.balance1 update + StateUpdate.balance2 update in
  (forall st', submit route update st = Ok (tt, st') ->
     proposed = total (channel_of channelId st)
     /\ total (channel_of channelId st') = total (channel_of channelId st))
  /\ (proposed <> total (channel_of channelId st) ->
      (exists e, submit route update st = Err e)
      /\ exec (submit route update) st = st).
Proof.
  intros Hc. cbv zeta.
  assert (Hok : forall st', submit route update st = Ok (tt, st') ->
     StateUpdate.balance1 update + StateUpdate.balance2 update
     = total (channel_of (StateUpdate.channelId update) st)
     /\ total (channel_of (StateUpdate.channelId update) st')
        = total (channel_of (StateUpdate.channelId update) st)).
  { intros st' Hrun.
    destruct (submit_Ok_inv _ _ _ _ Hc Hrun) as [Hv Ht].
    split.
    - by destruct Hv as (_ & _ & _ & _ & Hsum & _).
    - rewrite Ht. by apply total_apply_update. }
  split; [exact Hok|].
  intros Hdiff. apply rejected. intros [[] st'] Hrun.
  by destruct (Hok st' Hrun).
Qed.

(** C3 (monotonic nonce). An update whose nonce does not exceed the channel's
    is rejected by [updateChannel] whatever signatures it carries (with
    "Invalid nonce" once the channel is active and undisputed); an update
    that passes the validation is accepted; and an accepted update leaves
    the channel with the update's nonce, which is strictly greater than the
    nonce before. *)
Theorem C3_nonce_strictly_increases update st :
  let channelId := StateUpdate.channelId update in
  let channel := channel_of channelId st in
  (StateUpdate.nonce update <= ChannelData.nonce channel ->
   forall signature1 signature2,
     let resigned := with_signatures signature1 signature2 update in
     (exists e, updateChannel resigned st = Err e)
     /\ exec (updateChannel resigned) st = st
     /\ (ChannelData.isActive channel = true ->
         inDispute_of channelId st = false ->
         updateChannel resigned st = Err InvalidNonce))
  /\ (forall st', updateChannel update st = Ok (tt, st') ->
      ChannelData.nonce channel < StateUpdate.nonce update
      /\ ChannelData.nonce (channel_of channelId st')
         = StateUpdate.nonce update)
  /\ (valid_update update st ->
      exists st',
        updateChannel update st = Ok (tt, st')
        /\ ChannelData.nonce channel
           < ChannelData.nonce (channel_of channelId st')
        /\ ChannelData.nonce (channel_of channelId st')
           = StateUpdate.nonce update).
Proof.
  cbv zeta. splits.
  - intros Hle signature1 signature2.
    set (resigned := with_signatures signature1 signature2 update).
    assert (Hrej : (exists e, updateChannel resigned st = Err e)
                   /\ exec (updateChannel resigned) st = st).
    { apply rejected. intros r Hrun.
      apply updateChannel_Ok in Hrun as [(_ & _ & Hn & _) _].
      simpl in Hn. lia. }
    destruct Hrej as [He Hx]. splits; auto.
    intros Ha Hd. unfold updateChannel. unfold_monad. simpl.
    rewrite Ha, Hd. simpl. take_branch. reflexivity.
  - intros st' Hrun. apply updateChannel_Ok_inv in Hrun as [Hv ->].
    destruct Hv as (_ & _ & Hn & _). split; [exact Hn|].
    by rewrite channel_of_apply_update, N.eqb_refl.
  - intros Hv. exists (apply_update update st).
    assert (Hst : ChannelData.nonce
                    (channel_of (StateUpdate.channelId update)
                       (apply_update update st))
                  = StateUpdate.nonce update)
      by (by rewrite channel_of_apply_update, N.eqb_refl).
    splits.
    + by apply updateChannel_Ok.
    + rewrite Hst. by destruct Hv as (_ & _ & Hn & _).
    + exact Hst.
Qed.

(** C4 (dual signatures). On an active, undisputed channel, an update with a
    greater nonce and the channel's balance sum is rejected, and the storage
    unchanged, as soon as one of its two signatures is not a signature of
    the corresponding participant over
    keccak256(channelId, nonce, balance1, balance2), whatever the other
    signature is. *)
Theorem C4_both_signatures_required update st :
  let channelId := StateUpdate.channelId update in
  let channel := channel_of channelId st in
  let messageHash :=
    keccak256 (encodePacked
      [abi_bytes32 channelId; abi_uint256 (StateUpdate.nonce update);
       abi_uint256 (StateUpdate.balance1 update);
       abi_uint256 (StateUpdate.balance2 update)]) in
  ChannelData.isActive channel = true ->
  inDispute_of channelId st = false ->
  ChannelData.nonce channel < StateUpdate.nonce update ->
  StateUpdate.balance1 update + StateUpdate.balance2 update = total channel ->
  ~ verifies messageHash (StateUpdate.signature1 update)
      (ChannelData.participant1 channel)
  \/ ~ verifies messageHash (StateUpdate.signature2 update)
         (ChannelData.participant2 channel) ->
  (exists e, updateChannel update st = Err e)
  /\ exec (updateChannel update) st = st.
Proof.
  cbv zeta. intros _ _ _ _ Hbad.
  apply rejected. intros r Hrun.
  apply updateChannel_Ok in Hrun as [(_ & _ & _ & _ & _ & Hs1 & Hs2) _].
  destruct Hbad as [Hbad|Hbad]; apply Hbad; assumption.
Qed.

(** ** Disputes: resolution and timeout *)

Lemma resolveDispute_blocked env channelId update st :
  StateUpdate.channelId update = channelId ->
  is_participant env (channel_of channelId st) = true ->
  ChannelData.isActive (channel_of channelId st) = true ->
  inDispute_of channelId st = true ->
  block_timestamp env <= disputeTimeout_of channelId st ->
  resolveDispute env channelId update st = Err ChannelInDispute.
Proof.
  intros <- Hp Ha Hd Ht. unfold resolveDispute, updateChannel, is_participant in *.
  unfold_monad. rewrite Hp. simpl. rewrite Hd. simpl. take_branch.
  rewrite Ha. simpl. rewrite Hd. reflexivity.
Qed.

(** The timeout split, as the code has it. For a disputed channel and a
    participant calling [withdrawTimelock], with T the channel's balance
    sum: once the deadline has passed, the call goes through exactly when
    the contract's balance covers T and both participants take the
    transfer; it then pays T/2 to participant1 and T - T/2 (T/2 plus the
    remainder) to participant2, marks the channel inactive and clears the
    dispute flag. Up to the deadline the call reverts and nothing changes. *)
Lemma withdrawTimelock_split env channelId st :
  let channel := channel_of channelId st in
  let T := total channel in
  is_participant env channel = true ->
  inDispute_of channelId st = true ->
  balance_is_uint256 st ->
  (disputeTimeout_of channelId st < block_timestamp env ->
   ((exists st', withdrawTimelock env channelId st = Ok (tt, st'))
    <-> T <= this_balance st /\ participants_receive channel)
   /\ forall st', withdrawTimelock env channelId st = Ok (tt, st') ->
        payments st'
        = payments st ++ [(ChannelData.participant1 channel, T / 2);
                          (ChannelData.participant2 channel, T - T / 2)]
        /\ T - T / 2 = T / 2 + T mod 2
        /\ this_balance st' = this_balance st - T
        /\ ChannelData.isActive (channel_of channelId st') = false
        /\ inDispute_of channelId st' = false)
  /\ (block_timestamp env <= disputeTimeout_of channelId st ->
      withdrawTimelock env channelId st = Err DisputePeriodNotEnded
      /\ exec (withdrawTimelock env channelId) st = st).
Proof.
  cbv zeta. unfold balance_is_uint256. intros Hp Hd Hwf. split.
  - intros Ht. split.
    + split.
      * intros [st' Hrun].
        apply withdrawTimelock_Ok in Hrun as (_ & _ & _ & _ & Hbal & Hrc & _).
        auto.
      * intros [Hbal Hrc]. eexists. apply withdrawTimelock_Ok.
        splits; eauto; lia.
    + intros st' Hrun.
      apply withdrawTimelock_Ok in Hrun
        as (_ & _ & _ & _ & Hbal & _ & [= ->]).
      unfold timelock_settled.
      remember (total (channel_of channelId st)) as T eqn:HT.
      assert (Hdiv : T = 2 * (T / 2) + T mod 2) by apply N.Div0.div_mod.
      assert (Hsplit : T - T / 2 = T / 2 + T mod 2 /\ T / 2 <= T).
      { generalize dependent (T / 2). generalize (T mod 2). intros; lia. }
      destruct Hsplit as [Hsplit Hhalf]. splits.
      * simpl. by rewrite <- app_assoc.
      * exact Hsplit.
      * simpl. generalize dependent (T / 2). intros; lia.
      * clear HT. storage. reflexivity.
      * clear HT. storage. reflexivity.
  - intros Ht.
    assert (Hrun : withdrawTimelock env channelId st
                   = Err DisputePeriodNotEnded).
    { unfold withdrawTimelock, is_participant in *. unfold_monad.
      rewrite Hp, Hd. simpl. take_branch. reflexivity. }
    split; [exact Hrun|]. unfold exec. by rewrite Hrun.
Qed.

(** ** Terminated channels *)

(** C6 (terminated channels), as the code has it. In every storage the
    contract can reach, on a channel whose isActive flag is false:
    [closeChannel] reverts with "Channel not active" for a participant and
    with "Not a channel participant" for anyone else; [withdrawTimelock],
    which has no activity guard, reverts with "No active dispute" for a
    participant and with "Not a channel participant" for anyone else. In
    each case nothing is paid and the storage is unchanged. *)
Theorem C6_inactive_channel_is_inert env channelId st :
  reachable st ->
  ChannelData.isActive (channel_of channelId st) = false ->
  let participant := is_participant env (channel_of channelId st) in
  (forall finalUpdate,
     closeChannel env channelId finalUpdate st
     = Err (if participant then ChannelInactive else NotParticipant)
     /\ exec (closeChannel env channelId finalUpdate) st = st)
  /\ withdrawTimelock env channelId st
     = Err (if participant then NoActiveDispute else NotParticipant)
  /\ exec (withdrawTimelock env channelId) st = st.
Proof.
  intros Hreach Ha. cbv zeta.
  assert (Hd : inDispute_of channelId st = false).
  { destruct (inDispute_of channelId st) eqn:Hd; [|reflexivity].
    apply reachable_disputes_are_active in Hreach.
    rewrite (Hreach channelId Hd) in Ha. discriminate. }
  assert (Hclose : forall finalUpdate,
    closeChannel env channelId finalUpdate st
    = Err (if is_participant env (channel_of channelId st)
           then ChannelInactive else NotParticipant)).
  { intros finalUpdate. unfold closeChannel, is_participant. unfold_monad.
    destruct (_ || _); simpl; [rewrite Ha|]; reflexivity. }
  assert (Htimelock :
    withdrawTimelock env channelId st
    = Err (if is_participant env (channel_of channelId st)
           then NoActiveDispute else NotParticipant)).
  { unfold withdrawTimelock, is_participant. unfold_monad.
    destruct (_ || _); simpl; [rewrite Hd|]; reflexivity. }
  splits.
  - intros finalUpdate. split; [apply Hclose|].
    unfold exec. by rewrite Hclose.
  - exact Htimelock.
  - unfold exec. by rewrite Htimelock.
Qed.

(** ** Relaying *)

(** C8 (relaying), as the code has it. [relayTransaction] goes through
    exactly when the relayer is authorised, the relayer's signature verifies
    over keccak256(channelId, nonce, relayer), [updateChannel] accepts the
    update, and the contract can pay: its balance covers relayerFee and the
    relayer takes the transfer. The update is then applied and relayerFee
    paid to the relayer. For a relayer that is not authorised the call
    reverts with "Unauthorized relayer" and the storage is unchanged. *)
Theorem C8_relayTransaction update relayer relayerSignature st :
  let relayed := relayTransaction update relayer relayerSignature in
  let relayHash :=
    keccak256 (encodePacked
      [abi_bytes32 (StateUpdate.channelId update);
       abi_uint256 (StateUpdate.nonce update); abi_address relayer]) in
  ((exists st', relayed st = Ok (tt, st'))
   <-> authorized relayer st = true
       /\ verifies relayHash relayerSignature relayer
       /\ (exists st1, updateChannel update st = Ok (tt, st1))
       /\ payable_now relayer (relayerFee st) st)
  /\ (forall st', relayed st = Ok (tt, st') ->
      exists st1, updateChannel update st = Ok (tt, st1)
                  /\ st' = pay relayer (relayerFee st) st1
                  /\ payments st' = payments st ++ [(relayer, relayerFee st)])
  /\ (authorized relayer st = false ->
      relayed st = Err UnauthorizedRelayer /\ exec relayed st = st).
Proof.
  cbv zeta. splits.
  - split.
    + intros [st' Hrun].
      apply relayTransaction_Ok in Hrun as (Ha & Hs & Hv & Hp & _).
      splits; auto. eexists. by apply updateChannel_accepts.
    + intros (Ha & Hs & [st1 Hup] & Hp).
      apply updateChannel_Ok_inv in Hup as [Hv _].
      eexists. apply relayTransaction_Ok. splits; eauto.
  - intros st' Hrun.
    apply relayTransaction_Ok in Hrun as (_ & _ & Hv & _ & [= ->]).
    eexists. splits; [by apply updateChannel_accepts|reflexivity|reflexivity].
  - intros Ha.
    assert (Hrun : relayTransaction update relayer relayerSignature st
                   = Err UnauthorizedRelayer).
    { unfold relayTransaction. unfold_monad. by rewrite Ha. }
    split; [exact Hrun|]. unfold exec. by rewrite Hrun.
Qed.

(** ** Closing and the emergency path *)

Lemma payments_pay_if_positive to amount st :
  payments (pay_if_positive to amount st)
  = payments st ++ (if 0 <? amount then [(to, amount)] else []).
Proof.
  unfold pay_if_positive. destruct (0 <? amount); simpl; [reflexivity|].
  by rewrite app_nil_r.
Qed.


(** ** Channel identifiers *)

(** C10 (identifier collision). [openChannel] computes the identifier from
    (participant1, participant2, block.timestamp, block.number) alone and
    writes the record whatever is stored under it. Two successful calls for
    the same pair in the same block therefore return the same identifier,
    and after the second the storage holds the second record only, exactly
    as if the first call had stored nothing, while the contract keeps the
    ether of both calls, each covering its deposit. *)
Theorem C10_same_block_reopen_overwrites
  env1 env2 value1 value2 participant1 participant2
  amount1 amount2 timeout1 amount1' amount2' timeout2 st id1 st1 id2 st2 :
  block_timestamp env1 = block_timestamp env2 ->
  block_number env1 = block_number env2 ->
  openChannel env1 value1 participant1 participant2 amount1 amount2 timeout1
    st = Ok (id1, st1) ->
  openChannel env2 value2 participant1 participant2 amount1' amount2'
    timeout2 st1 = Ok (id2, st2) ->
  let first :=
    ChannelData.mk participant1 participant2 amount1 amount2 0 timeout1 true in
  let second :=
    ChannelData.mk participant1 participant2 amount1' amount2' 0 timeout2
      true in
  id1 = keccak256 (encodePacked
          [abi_address participant1; abi_address participant2;
           abi_uint256 (block_timestamp env1);
           abi_uint256 (block_number env1)])
  /\ id2 = id1
  /\ channel_of id1 st1 = first
  /\ channel_of id1 st2 = second
  /\ channels st2 = mset (channels st) id1 second
  /\ this_balance st2 = this_balance st + value1 + value2
  /\ amount1 + amount2 <= value1
  /\ amount1' + amount2' <= value2
  /\ payments st2 = payments st.
Proof.
  intros Hts Hbn Hopen1 Hopen2. cbv zeta.
  apply openChannel_Ok in Hopen1
    as (_ & _ & _ & _ & _ & Hv1 & [= -> ->]).
  apply openChannel_Ok in Hopen2
    as (_ & _ & _ & _ & _ & Hv2 & [= -> ->]).
  unfold channel_opened, channel_id. rewrite <- Hts, <- Hbn.
  simpl in Hv2.
  set (id := keccak256 _).
  splits.
  - reflexivity.
  - reflexivity.
  - unfold channel_of. simpl. by rewrite mget_mset_eq.
  - unfold channel_of. simpl. by rewrite mget_mset_eq.
  - simpl. by rewrite mset_mset.
  - simpl. lia.
  - lia.
  - lia.
  - reflexivity.
Qed.

(** * Further properties of the contract *)

(** ** Characterisations of the remaining entry points *)

Lemma closeChannel_Ok env channelId finalUpdate st r :
  closeChannel env channelId finalUpdate st = Ok r
  <-> is_participant env (channel_of channelId st) = true
      /\ ChannelData.isActive (channel_of channelId st) = true
      /\ inDispute_of channelId st = false
      /\ exists st1,
           ((0 < StateUpdate.nonce finalUpdate
             /\ valid_update finalUpdate st
             /\ st1 = apply_update finalUpdate st)
            \/ (StateUpdate.nonce finalUpdate = 0 /\ st1 = st))
           /\ payout_possible channelId st1
           /\ r = (tt, channel_closed channelId st1).
Proof.
  unfold closeChannel, is_participant, payout_possible, channel_closed,
    pay_if_positive, total.
  unfold_monad. split.
  - intros Hrun.
    destruct (_ || _) eqn:Hp; simpl in Hrun; [|discriminate].
    destruct (ChannelData.isActive (channel_of channelId st)) eqn:Ha;
      simpl in Hrun; [|discriminate].
    destruct (inDispute_of channelId st) eqn:Hd; simpl in Hrun;
      [discriminate|].
    splits; auto.
    assert (Hpre : exists st1,
      ((0 < StateUpdate.nonce finalUpdate /\ valid_update finalUpdate st
        /\ st1 = apply_update finalUpdate st)
       \/ (StateUpdate.nonce finalUpdate = 0 /\ st1 = st))
      /\ (if 0 <? StateUpdate.nonce finalUpdate
          then updateChannel finalUpdate else fun s => Ok (tt, s)) st
         = Ok (tt, st1)).
    { revert Hrun. destruct (N.ltb_spec 0 (StateUpdate.nonce finalUpdate)).
      - destruct (updateChannel finalUpdate st) as [[[] s1]|e] eqn:Hup;
          [|discriminate].
        apply updateChannel_Ok_inv in Hup as [Hv ->]. eauto 10.
      - exists st. split; [right; split; [lia|]|]; reflexivity. }
    destruct Hpre as (st1 & Hst1 & Hup). rewrite Hup in Hrun.
    exists st1. split; [exact Hst1|]. clear Hup Hst1.
    rewrite !channel_of_update_channel, N.eqb_refl in Hrun. simpl in Hrun.
    set (channel := channel_of channelId st1) in *.
    destruct (N.ltb_spec 0 (ChannelData.balance1 channel));
      destruct (N.ltb_spec 0 (ChannelData.balance2 channel));
      simpl in Hrun; branches Hrun; props; injection Hrun as <-;
      simpl in *; splits; auto; try lia; intros; try lia; auto.
  - intros (Hp & Ha & Hd & st1 & Hst1 & (Hbal & Hr1 & Hr2) & ->).
    rewrite Hp, Ha, Hd. simpl.
    assert (Hup : (if 0 <? StateUpdate.nonce finalUpdate
                   then updateChannel finalUpdate else fun s => Ok (tt, s)) st
                  = Ok (tt, st1)).
    { destruct Hst1 as [(Hn & Hv & ->)|(Hn & ->)].
      - apply N.ltb_lt in Hn. rewrite Hn. by apply updateChannel_accepts.
      - rewrite Hn. reflexivity. }
    rewrite Hup. simpl.
    rewrite !channel_of_update_channel, N.eqb_refl. simpl.
    set (channel := channel_of channelId st1) in *.
    destruct (N.ltb_spec 0 (ChannelData.balance1 channel)) as [H1|H1];
      destruct (N.ltb_spec 0 (ChannelData.balance2 channel)) as [H2|H2];
      simpl;
      try (destruct (Hr1 H1) as [Hn1 Hrc1]; rewrite Hrc1);
      try (destruct (Hr2 H2) as [Hn2 Hrc2]; rewrite Hrc2);
      repeat take_branch; reflexivity.
Qed.

Lemma resolveDispute_Ok env channelId update st r :
  resolveDispute env channelId update st = Ok r
  <-> is_participant env (channel_of channelId st) = true
      /\ inDispute_of channelId st = true
      /\ block_timestamp env <= disputeTimeout_of channelId st
      /\ valid_update update st
      /\ r = (tt, dispute_cleared channelId (apply_update update st)).
Proof.
  unfold dispute_cleared. split.
  - destruct r as [[] st']. intros Hrun.
    apply resolveDispute_Ok_inv in Hrun as (? & ? & ? & ? & ->).
    splits; auto.
  - intros (Hp & Hd & Ht & Hv & ->).
    unfold resolveDispute, is_participant in *. unfold_monad.
    rewrite Hp. simpl. rewrite Hd. simpl. take_branch.
    rewrite (updateChannel_accepts _ _ Hv). reflexivity.
Qed.

Lemma onlyOwner_Ok {A} env (body : M A) st r :
  onlyOwner env body st = Ok r
  <-> msg_sender env = owner st /\ body st = Ok r.
Proof.
  unfold onlyOwner. unfold_monad.
  destruct (N.eqb_spec (msg_sender env) (owner st)); simpl;
    split; try (intros [? ?]); auto; try discriminate; congruence.
Qed.

Lemma onlyOwner_stranger {A} env (body : M A) st :
  msg_sender env <> owner st ->
  onlyOwner env body st = Err (Revert "Ownable: caller is not the owner").
Proof.
  intros Hne. unfold onlyOwner. unfold_monad.
  by destruct (N.eqb_spec (msg_sender env) (owner st)).
Qed.

Lemma setYellowNetworkOracle_Ok env _oracle st r :
  setYellowNetworkOracle env _oracle st = Ok r
  <-> msg_sender env = owner st
      /\ r = (tt, log (YellowNetworkOracleUpdated _oracle)
                    (set_yellowNetworkOracle _oracle st)).
Proof.
  unfold setYellowNetworkOracle. rewrite onlyOwner_Ok. unfold_monad.
  split; intros [? ?]; split; auto; congruence.
Qed.

Lemma setRelayerAuthorization_Ok env relayer a st r :
  setRelayerAuthorization env relayer a st = Ok r
  <-> msg_sender env = owner st
      /\ r = (tt, log (RelayerAuthorized relayer a)
                    (set_authorizedRelayers (fun m => mset m relayer a) st)).
Proof.
  unfold setRelayerAuthorization. rewrite onlyOwner_Ok. unfold_monad.
  split; intros [? ?]; split; auto; congruence.
Qed.

Lemma updateFees_Ok env cf rf st r :
  updateFees env cf rf st = Ok r
  <-> msg_sender env = owner st
      /\ r = (tt, log (FeesUpdated cf rf) (set_fees cf rf st)).
Proof.
  unfold updateFees. rewrite onlyOwner_Ok. unfold_monad.
  split; intros [? ?]; split; auto; congruence.
Qed.

Lemma transferOwnership_Ok env newOwner st r :
  transferOwnership env newOwner st = Ok r
  <-> msg_sender env = owner st /\ newOwner <> 0
      /\ r = (tt, log (OwnershipTransferred (owner st) newOwner)
                    (set_owner newOwner st)).
Proof.
  unfold transferOwnership. rewrite onlyOwner_Ok. unfold_monad.
  destruct (N.eqb_spec newOwner 0); simpl; split;
    try (intros (? & ? & ?)); try (intros [? ?]); splits; auto;
    try discriminate; congruence.
Qed.

Lemma renounceOwnership_Ok env st r :
  renounceOwnership env st = Ok r
  <-> msg_sender env = owner st
      /\ r = (tt, log (OwnershipTransferred (owner st) 0) (set_owner 0 st)).
Proof.
  unfold renounceOwnership. rewrite onlyOwner_Ok. unfold_monad.
  split; intros [? ?]; split; auto; congruence.
Qed.

Lemma emergencyWithdraw_nothing env channelId st r :
  total (channel_of channelId st) = 0 ->
  emergencyWithdraw env channelId st = Ok r
  <-> msg_sender env = owner st
      /\ ChannelData.isActive (channel_of channelId st) = false
      /\ r = (tt, st).
Proof.
  unfold emergencyWithdraw, total. intros Hz. rewrite onlyOwner_Ok.
  unfold_monad. rewrite Hz. simpl.
  destruct (ChannelData.isActive (channel_of channelId st)); simpl;
    split; try (intros (? & ? & ?)); try (intros [? ?]); splits; auto;
    try discriminate; congruence.
Qed.

(** ** Opening *)

(** X1 (rejections of openChannel). The preconditions are tested in the
    order of the source, so a call that breaks several is rejected for the
    first: equal participants (the zero address twice included), then a zero
    participant, then a timeout outside [1 hour, 30 days], then an overflow
    of amount1 + amount2 + channelFee, then too little ether. Whatever the
    reason, the storage is as before, the ether sent included. *)
Theorem X1_openChannel_rejections
  env value participant1 participant2 amount1 amount2 timeout st :
  let opening :=
    openChannel env value participant1 participant2 amount1 amount2 timeout in
  let needed := amount1 + amount2 + channelFee st in
  (participant1 = participant2 ->
   opening st = Err (Revert "Participants must be different"))
  /\ (participant1 <> participant2 ->
      participant1 = 0 \/ participant2 = 0 ->
      opening st = Err (Revert "Invalid participants"))
  /\ (participant1 <> participant2 ->
      participant1 <> 0 -> participant2 <> 0 ->
      (timeout < MIN_TIMEOUT \/ MAX_TIMEOUT < timeout ->
       opening st = Err (Revert "Invalid timeout"))
      /\ (MIN_TIMEOUT <= timeout <= MAX_TIMEOUT ->
          (MAX_UINT256 < needed -> opening st = Err (Panic 17))
          /\ (needed <= MAX_UINT256 -> value < needed ->
              opening st = Err (Revert "Insufficient funds"))))
  /\ (forall e, opening st = Err e -> exec opening st = st).
Proof.
  cbv zeta.
  assert (Hlast : forall e,
    openChannel env value participant1 participant2 amount1 amount2 timeout st
    = Err e ->
    exec (openChannel env value participant1 participant2 amount1 amount2
            timeout) st = st)
    by (intros e Hrun; apply (exec_Err _ _ e Hrun)).
  revert Hlast. unfold openChannel. unfold_monad. simpl. intros Hlast.
  splits.
  - intros ->. by rewrite N.eqb_refl.
  - intros Hne Hz. take_branch.
    destruct Hz as [-> | ->]; simpl; [reflexivity|].
    by rewrite andb_false_r.
  - intros Hne Hz1 Hz2. split.
    + intros Ht. take_branch. take_branch.
      destruct Ht as [Ht|Ht].
      * apply N.leb_gt in Ht. by rewrite Ht.
      * apply N.leb_gt in Ht. by rewrite Ht, andb_false_r.
    + intros [Hlo Hhi]. split.
      * intros Hover. take_branch. take_branch. take_branch.
        destruct (N.leb_spec (amount1 + amount2) MAX_UINT256); simpl;
          [|reflexivity].
        take_branch. reflexivity.
      * intros Hfit Hshort. repeat take_branch. reflexivity.
  - exact Hlast.
Qed.

(** X2 (what openChannel touches). A successful openChannel keeps all the
    ether sent, more than amount1 + amount2 + channelFee included, pays
    nothing, and writes one channel record; every other record and the whole
    dispute bookkeeping stay as they were. So a channel opened under an
    identifier that is flagged as disputed is disputed from the start, with
    the old deadline, and takes no update. *)
Theorem X2_openChannel_frame
  env value participant1 participant2 amount1 amount2 timeout st id st' :
  openChannel env value participant1 participant2 amount1 amount2 timeout st
  = Ok (id, st') ->
  this_balance st' = this_balance st + value
  /\ payments st' = payments st
  /\ (forall id', id' <> id -> channel_of id' st' = channel_of id' st)
  /\ (forall id', inDispute_of id' st' = inDispute_of id' st
                  /\ disputeTimeout_of id' st' = disputeTimeout_of id' st)
  /\ (inDispute_of id st = true ->
      forall update, StateUpdate.channelId update = id ->
        updateChannel update st' = Err ChannelInDispute).
Proof.
  intros Hopen.
  apply openChannel_Ok in Hopen as (_ & _ & _ & _ & _ & _ & [= -> ->]).
  unfold channel_opened. set (id := channel_id _ _ _). splits.
  - reflexivity.
  - reflexivity.
  - intros id' Hne. unfold channel_of. simpl. rewrite mget_mset.
    destruct (N.eqb_spec id id'); congruence.
  - intros id'. split; reflexivity.
  - intros Hd update Hid. unfold updateChannel. unfold_monad. rewrite Hid.
    unfold channel_of. simpl. rewrite mget_mset_eq. simpl.
    change (inDispute_of id st) with (mget (inDispute st) id) in Hd.
    unfold inDispute_of. simpl. by rewrite Hd.
Qed.

(** ** Disputes *)

(** X3 (dispute exclusivity). While an active channel is flagged as
    disputed, updateChannel rejects every update of it with "Channel in
    dispute", relayTransaction never relays one, closeChannel by a
    participant reverts with "Channel in dispute", and a second
    disputeChannel reverts with "Already in dispute". *)
Theorem X3_disputed_channel_is_frozen update st :
  let channelId := StateUpdate.channelId update in
  inDispute_of channelId st = true ->
  ChannelData.isActive (channel_of channelId st) = true ->
  updateChannel update st = Err ChannelInDispute
  /\ (forall relayer relayerSignature,
        (exists e, relayTransaction update relayer relayerSignature st = Err e)
        /\ (authorized relayer st = true ->
            verifies (relayHash update relayer) relayerSignature relayer ->
            relayTransaction update relayer relayerSignature st
            = Err ChannelInDispute))
  /\ (forall env finalUpdate,
        is_participant env (channel_of channelId st) = true ->
        closeChannel env channelId finalUpdate st = Err ChannelInDispute
        /\ disputeChannel env channelId st
           = Err (Revert "Already in dispute")).
Proof.
  cbv zeta. intros Hd Ha.
  assert (Hup : updateChannel update st = Err ChannelInDispute).
  { unfold updateChannel. unfold_monad. by rewrite Ha, Hd. }
  splits.
  - exact Hup.
  - intros relayer sig. split.
    + destruct (relayTransaction update relayer sig st) as [[[] st']|e]
        eqn:Hrun; [|eauto].
      apply relayTransaction_Ok in Hrun as (_ & _ & (_ & Hnd & _) & _).
      congruence.
    + intros Hauth Hsig. unfold relayTransaction, verifies in *.
      unfold_monad. rewrite Hauth, Hsig, N.eqb_refl. simpl.
      by rewrite Hup.
  - intros env finalUpdate Hp. unfold is_participant in Hp. split.
    + unfold closeChannel. unfold_monad. by rewrite Hp, Ha, Hd.
    + unfold disputeChannel. unfold_monad. by rewrite Hp, Ha, Hd.
Qed.

(** X4 (the dispute window). A successful disputeChannel flags the channel
    and sets its deadline to block.timestamp + 1 day, leaving the channel
    record and the ether alone. In the storage it leaves, and in every later
    storage in which the flag, the deadline and the record of the channel
    are still those, a participant's withdrawTimelock reverts with "Dispute
    period not ended" up to and including the deadline, and resolveDispute
    reverts with "Dispute timeout exceeded" after it and, for an update of
    the disputed channel, with "Channel in dispute" before. *)
Theorem X4_dispute_window env channelId st st' :
  disputeChannel env channelId st = Ok (tt, st') ->
  let deadline := block_timestamp env + DISPUTE_TIMEOUT in
  inDispute_of channelId st' = true
  /\ disputeTimeout_of channelId st' = deadline
  /\ channel_of channelId st' = channel_of channelId st
  /\ this_balance st' = this_balance st
  /\ payments st' = payments st
  /\ forall later,
       inDispute_of channelId later = true ->
       disputeTimeout_of channelId later = deadline ->
       channel_of channelId later = channel_of channelId st ->
       forall env',
         is_participant env' (channel_of channelId st) = true ->
         (block_timestamp env' <= deadline ->
          withdrawTimelock env' channelId later = Err DisputePeriodNotEnded
          /\ forall update, StateUpdate.channelId update = channelId ->
               resolveDispute env' channelId update later
               = Err ChannelInDispute)
         /\ (deadline < block_timestamp env' ->
             forall update,
               resolveDispute env' channelId update later
               = Err (Revert "Dispute timeout exceeded")).
Proof.
  intros Hrun. cbv zeta.
  apply disputeChannel_Ok in Hrun as (_ & Ha & _ & _ & [= ->]).
  splits.
  - unfold dispute_raised, inDispute_of. simpl. apply mget_mset_eq.
  - unfold dispute_raised, disputeTimeout_of. simpl. apply mget_mset_eq.
  - reflexivity.
  - reflexivity.
  - reflexivity.
  - intros later Hd Ht Hc env' Hp. rewrite <- Hc in Hp, Ha. split.
    + intros Hle. split.
      * unfold withdrawTimelock, is_participant in *. unfold_monad.
        rewrite Hp. simpl. rewrite Hd. simpl. rewrite Ht.
        take_branch. reflexivity.
      * intros update Hid. apply resolveDispute_blocked; auto.
        rewrite Ht. exact Hle.
    + intros Hgt update. unfold resolveDispute, is_participant in *.
      unfold_monad. rewrite Hp. simpl. rewrite Hd. simpl. rewrite Ht.
      take_branch. reflexivity.
Qed.

(** X6 (resolveDispute with an update of another channel). The update handed
    to resolveDispute is validated against the channel it names, not against
    the disputed one. A participant of a disputed channel who, before the
    deadline, submits a valid update of another channel thereby clears the
    dispute: the flag and the deadline of the disputed channel are reset, its
    record is untouched, and the other channel takes the update. *)
Theorem X6_resolveDispute_other_channel env channelId update st :
  StateUpdate.channelId update <> channelId ->
  is_participant env (channel_of channelId st) = true ->
  inDispute_of channelId st = true ->
  block_timestamp env <= disputeTimeout_of channelId st ->
  valid_update update st ->
  exists st',
    resolveDispute env channelId update st = Ok (tt, st')
    /\ inDispute_of channelId st' = false
    /\ disputeTimeout_of channelId st' = 0
    /\ channel_of channelId st' = channel_of channelId st
    /\ channel_of (StateUpdate.channelId update) st'
       = with_state (StateUpdate.balance1 update)
           (StateUpdate.balance2 update) (StateUpdate.nonce update)
           (channel_of (StateUpdate.channelId update) st)
    /\ payments st' = payments st.
Proof.
  intros Hne Hp Hd Ht Hv. eexists. split.
  - apply resolveDispute_Ok. splits; eauto.
  - unfold dispute_cleared. splits.
    + unfold inDispute_of. simpl. apply mget_mset_eq.
    + unfold disputeTimeout_of. simpl. apply mget_mset_eq.
    + change (channel_of channelId (apply_update update st)
              = channel_of channelId st).
      rewrite channel_of_apply_update.
      destruct (N.eqb_spec (StateUpdate.channelId update) channelId);
        congruence.
    + change (channel_of (StateUpdate.channelId update)
                (apply_update update st) = with_state
                  (StateUpdate.balance1 update) (StateUpdate.balance2 update)
                  (StateUpdate.nonce update)
                  (channel_of (StateUpdate.channelId update) st)).
      by rewrite channel_of_apply_update, N.eqb_refl.
    + reflexivity.
Qed.

(** ** Closing *)

Lemma payments_channel_closed channelId st :
  payments (channel_closed channelId st)
  = payments st ++ payout (channel_of channelId st).
Proof.
  unfold channel_closed, payout. simpl payments at 1.
  rewrite !payments_pay_if_positive. simpl. by rewrite <- app_assoc.
Qed.

Lemma channel_of_channel_closed channelId st id :
  channel_of id (channel_closed channelId st)
  = if channelId =? id then with_isActive false (channel_of channelId st)
    else channel_of id st.
Proof.
  unfold channel_closed.
  rewrite channel_of_log, !channel_of_pay_if_positive.
  apply channel_of_update_channel.
Qed.

(** X7 (closing without a final update). When the final update has nonce
    0, closeChannel ignores its other fields, signatures included: either
    participant alone closes an active, undisputed channel at the stored
    balances. The call goes through exactly when the contract holds
    balance1 + balance2 and each participant with a positive balance takes
    the transfer; a zero balance is not transferred at all. *)
Theorem X7_closeChannel_without_update env channelId finalUpdate st :
  StateUpdate.nonce finalUpdate = 0 ->
  let channel := channel_of channelId st in
  ((exists st', closeChannel env channelId finalUpdate st = Ok (tt, st'))
   <-> is_participant env channel = true
       /\ ChannelData.isActive channel = true
       /\ inDispute_of channelId st = false
       /\ payout_possible channelId st)
  /\ (forall st', closeChannel env channelId finalUpdate st = Ok (tt, st') ->
        payments st' = payments st ++ payout channel
        /\ channel_of channelId st' = with_isActive false channel
        /\ forall id, id <> channelId -> channel_of id st' = channel_of id st)
  /\ (forall other, StateUpdate.nonce other = 0 ->
        closeChannel env channelId other st
        = closeChannel env channelId finalUpdate st).
Proof.
  intros Hz. cbv zeta. splits.
  - split.
    + intros [st' Hrun].
      apply closeChannel_Ok in Hrun
        as (Hp & Ha & Hd & st1 & [(Hn & _)|(_ & ->)] & Hpay & _); [lia|].
      auto.
    + intros (Hp & Ha & Hd & Hpay). eexists. apply closeChannel_Ok.
      splits; auto. exists st. splits; eauto.
  - intros st' Hrun.
    apply closeChannel_Ok in Hrun
      as (_ & _ & _ & st1 & [(Hn & _)|(_ & ->)] & _ & [= ->]); [lia|].
    splits.
    + apply payments_channel_closed.
    + by rewrite channel_of_channel_closed, N.eqb_refl.
    + intros id Hne. rewrite channel_of_channel_closed.
      destruct (N.eqb_spec channelId id); congruence.
  - intros other Hzo. unfold closeChannel. unfold_monad.
    by rewrite Hz, Hzo.
Qed.

(** X8 (closing with an update of another channel). The final update of
    closeChannel is applied to the channel it names. A participant who closes
    a channel while passing a valid update of another channel changes that
    other channel, which stays open, and closes the named channel at its
    stored balances. *)
Theorem X8_closeChannel_update_of_other_channel
  env channelId finalUpdate st st' :
  StateUpdate.channelId finalUpdate <> channelId ->
  0 < StateUpdate.nonce finalUpdate ->
  closeChannel env channelId finalUpdate st = Ok (tt, st') ->
  let other := StateUpdate.channelId finalUpdate in
  valid_update finalUpdate st
  /\ channel_of other st'
     = with_state (StateUpdate.balance1 finalUpdate)
         (StateUpdate.balance2 finalUpdate) (StateUpdate.nonce finalUpdate)
         (channel_of other st)
  /\ channel_of channelId st' = with_isActive false (channel_of channelId st)
  /\ payments st' = payments st ++ payout (channel_of channelId st).
Proof.
  intros Hne Hn Hrun. cbv zeta.
  apply closeChannel_Ok in Hrun
    as (_ & _ & _ & st1 & [(_ & Hv & ->)|(Hz & _)] & _ & [= ->]); [|lia].
  assert (Hsame : channel_of channelId (apply_update finalUpdate st)
                  = channel_of channelId st).
  { rewrite channel_of_apply_update.
    destruct (N.eqb_spec (StateUpdate.channelId finalUpdate) channelId);
      congruence. }
  splits.
  - exact Hv.
  - rewrite channel_of_channel_closed.
    destruct (N.eqb_spec channelId (StateUpdate.channelId finalUpdate));
      [congruence|].
    by rewrite channel_of_apply_update, N.eqb_refl.
  - by rewrite channel_of_channel_closed, N.eqb_refl, Hsame.
  - rewrite payments_channel_closed, Hsame. reflexivity.
Qed.

(** ** Updates *)

(** X9 (what an update touches). An accepted updateChannel rewrites the two
    balances and the nonce of the named channel and emits one ChannelUpdated
    event. The channel's participants, timeout and activity, every other
    channel, the dispute records, the fees, the relayers, the owner and the
    contract's ether are as before: no update moves ether. *)
Theorem X9_updateChannel_frame update st st' :
  updateChannel update st = Ok (tt, st') ->
  let channelId := StateUpdate.channelId update in
  let before := channel_of channelId st in
  channel_of channelId st'
  = ChannelData.mk (ChannelData.participant1 before)
      (ChannelData.participant2 before) (StateUpdate.balance1 update)
      (StateUpdate.balance2 update) (StateUpdate.nonce update)
      (ChannelData.timeout before) (ChannelData.isActive before)
  /\ (forall id, id <> channelId -> channel_of id st' = channel_of id st)
  /\ inDispute st' = inDispute st
  /\ disputeTimeouts st' = disputeTimeouts st
  /\ this_balance st' = this_balance st
  /\ payments st' = payments st
  /\ (channelFee st', relayerFee st') = (channelFee st, relayerFee st)
  /\ authorizedRelayers st' = authorizedRelayers st
  /\ (owner st', yellowNetworkOracle st') = (owner st, yellowNetworkOracle st)
  /\ events st'
     = events st ++ [ChannelUpdated channelId (StateUpdate.nonce update)
                       (StateUpdate.balance1 update)
                       (StateUpdate.balance2 update)].
Proof.
  intros Hrun. cbv zeta. apply updateChannel_Ok_inv in Hrun as [_ ->].
  splits; try reflexivity.
  - by rewrite channel_of_apply_update, N.eqb_refl.
  - intros id Hne. rewrite channel_of_apply_update.
    destruct (N.eqb_spec (StateUpdate.channelId update) id); congruence.
Qed.

(** ** The transition relation *)

Lemma dispatch_Ok env c st st' :
  dispatch env c st = Ok (tt, st') <-> effect env c st st'.
Proof.
  destruct c; simpl.
  - unfold bind, ret.
    destruct (openChannel env value participant1 participant2 amount1
                amount2 timeout st) as [[id st1]|e] eqn:Hopen.
    + apply openChannel_Ok in Hopen.
      destruct Hopen as (? & ? & ? & ? & ? & ? & [= -> ->]).
      split; [intros [= <-]; splits; tauto|].
      intros (? & ? & ? & ? & ? & ? & ->). reflexivity.
    + split; [discriminate|].
      intros (? & ? & ? & ? & ? & ? & ->).
      assert (Hok : openChannel env value participant1 participant2 amount1
                      amount2 timeout st
                    = Ok (channel_id participant1 participant2 env,
                          channel_opened env value participant1 participant2
                            amount1 amount2 timeout st))
        by (apply openChannel_Ok; splits; tauto).
      congruence.
  - rewrite updateChannel_Ok. split; intros [? ?]; split; auto; congruence.
  - rewrite closeChannel_Ok. split.
    + intros (? & ? & ? & st1 & ? & ? & [= ->]). splits; auto.
      exists st1. splits; auto.
    + intros (? & ? & ? & st1 & ? & ? & ->). splits; auto.
      exists st1. splits; auto.
  - rewrite disputeChannel_Ok. split.
    + intros (? & ? & ? & ? & [= ->]). splits; auto.
    + intros (? & ? & ? & ? & ->). splits; auto.
  - rewrite resolveDispute_Ok. split.
    + intros (? & ? & ? & ? & [= ->]). splits; auto.
    + intros (? & ? & ? & ? & ->). splits; auto.
  - rewrite withdrawTimelock_Ok. split.
    + intros (? & ? & ? & ? & ? & ? & [= ->]). splits; auto.
    + intros (? & ? & ? & ? & ? & ? & ->). splits; auto.
  - rewrite setYellowNetworkOracle_Ok.
    split; intros [? ?]; split; auto; congruence.
  - rewrite setRelayerAuthorization_Ok.
    split; intros [? ?]; split; auto; congruence.
  - rewrite updateFees_Ok. split; intros [? ?]; split; auto; congruence.
  - rewrite relayTransaction_Ok. split.
    + intros (? & ? & ? & ? & [= ->]). splits; auto.
    + intros (? & ? & ? & ? & ->). splits; auto.
  - rewrite withdrawFees_Ok. split.
    + intros (? & ? & ? & ? & [= ->]). splits; auto.
    + intros (? & ? & ? & ? & ->). splits; auto.
  - destruct (N.eq_dec (total (channel_of channelId st)) 0) as [Hz|Hnz].
    + rewrite (emergencyWithdraw_nothing _ _ _ _ Hz). split.
      * intros (? & ? & [= ->]). splits; auto.
      * intros (? & ? & [[_ ->]|(Hpos & _)]); [splits; auto|lia].
    + assert (Hpos : 0 < total (channel_of channelId st)) by lia.
      rewrite (emergencyWithdraw_Ok _ _ _ _ Hpos). split.
      * intros (? & ? & ? & ? & ? & [= ->]). splits; auto.
        right. splits; auto.
      * intros (? & ? & [[Hz _]|(_ & ? & ? & ? & ->)]); [lia|].
        splits; auto.
  - rewrite transferOwnership_Ok. split.
    + intros (? & ? & [= ->]). splits; auto.
    + intros (? & ? & ->). splits; auto.
  - rewrite renounceOwnership_Ok.
    split; intros [? ?]; split; auto; congruence.
Qed.

(** ** What every call keeps *)

(** Split the conditions of a transition and substitute the new storage. *)
Ltac invert_effect :=
  repeat match goal with
  | H : _ /\ _ |- _ => destruct H
  | H : exists _, _ |- _ => destruct H
  | H : _ \/ _ |- _ => destruct H
  end; subst.

Ltac by_cases :=
  repeat match goal with
  | |- context [?a =? ?b] => destruct (N.eqb_spec a b); subst
  end.

(** The dispute records after each storage change. *)
Lemma inDispute_of_apply_update update st id :
  inDispute_of id (apply_update update st) = inDispute_of id st.
Proof. reflexivity. Qed.

Lemma disputeTimeout_of_apply_update update st id :
  disputeTimeout_of id (apply_update update st) = disputeTimeout_of id st.
Proof. reflexivity. Qed.

Lemma inDispute_of_pay_if_positive to amount st id :
  inDispute_of id (pay_if_positive to amount st) = inDispute_of id st.
Proof. unfold pay_if_positive. by destruct (0 <? amount). Qed.

Lemma disputeTimeout_of_pay_if_positive to amount st id :
  disputeTimeout_of id (pay_if_positive to amount st)
  = disputeTimeout_of id st.
Proof. unfold pay_if_positive. by destruct (0 <? amount). Qed.

Lemma inDispute_of_channel_closed channelId st id :
  inDispute_of id (channel_closed channelId st) = inDispute_of id st.
Proof.
  unfold channel_closed.
  change (inDispute_of id (log ?e ?s)) with (inDispute_of id s).
  by rewrite !inDispute_of_pay_if_positive.
Qed.

Lemma disputeTimeout_of_channel_closed channelId st id :
  disputeTimeout_of id (channel_closed channelId st)
  = disputeTimeout_of id st.
Proof.
  unfold channel_closed.
  change (disputeTimeout_of id (log ?e ?s)) with (disputeTimeout_of id s).
  by rewrite !disputeTimeout_of_pay_if_positive.
Qed.

Lemma inDispute_of_dispute_raised env channelId st id :
  inDispute_of id (dispute_raised env channelId st)
  = if channelId =? id then true else inDispute_of id st.
Proof. unfold dispute_raised, inDispute_of. simpl. apply mget_mset. Qed.

Lemma disputeTimeout_of_dispute_raised env channelId st id :
  disputeTimeout_of id (dispute_raised env channelId st)
  = if channelId =? id then block_timestamp env + DISPUTE_TIMEOUT
    else disputeTimeout_of id st.
Proof. unfold dispute_raised, disputeTimeout_of. simpl. apply mget_mset. Qed.

Lemma inDispute_of_dispute_cleared channelId st id :
  inDispute_of id (dispute_cleared channelId st)
  = if channelId =? id then false else inDispute_of id st.
Proof. unfold dispute_cleared, inDispute_of. simpl. apply mget_mset. Qed.

Lemma disputeTimeout_of_dispute_cleared channelId st id :
  disputeTimeout_of id (dispute_cleared channelId st)
  = if channelId =? id then 0 else disputeTimeout_of id st.
Proof. unfold dispute_cleared, disputeTimeout_of. simpl. apply mget_mset. Qed.

Lemma inDispute_of_timelock_settled channelId st id :
  inDispute_of id (timelock_settled channelId st)
  = if channelId =? id then false else inDispute_of id st.
Proof. unfold timelock_settled, inDispute_of. simpl. apply mget_mset. Qed.

Lemma disputeTimeout_of_timelock_settled channelId st id :
  disputeTimeout_of id (timelock_settled channelId st)
  = disputeTimeout_of id st.
Proof. reflexivity. Qed.

Lemma channel_of_timelock_settled channelId st id :
  channel_of id (timelock_settled channelId st)
  = if channelId =? id then with_isActive false (channel_of channelId st)
    else channel_of id st.
Proof. unfold timelock_settled, channel_of. simpl. apply mget_mset. Qed.

Lemma channel_of_emergency_paid channelId st id :
  channel_of id (emergency_paid channelId st)
  = if channelId =? id then with_balances 0 0 (channel_of channelId st)
    else channel_of id st.
Proof. unfold emergency_paid, channel_of. simpl. apply mget_mset. Qed.

Lemma channel_of_channel_opened env value p1 p2 amount1 amount2 timeout st
  id :
  channel_of id (channel_opened env value p1 p2 amount1 amount2 timeout st)
  = if channel_id p1 p2 env =? id
    then ChannelData.mk p1 p2 amount1 amount2 0 timeout true
    else channel_of id st.
Proof. unfold channel_opened, channel_of. simpl. apply mget_mset. Qed.

Lemma channel_of_dispute_cleared channelId st id :
  channel_of id (dispute_cleared channelId st) = channel_of id st.
Proof. reflexivity. Qed.

Lemma channel_of_dispute_raised env channelId st id :
  channel_of id (dispute_raised env channelId st) = channel_of id st.
Proof. reflexivity. Qed.

Create Rewrite HintDb obs.

#[local] Hint Rewrite
  inDispute_of_apply_update disputeTimeout_of_apply_update
  inDispute_of_channel_closed disputeTimeout_of_channel_closed
  inDispute_of_dispute_raised disputeTimeout_of_dispute_raised
  inDispute_of_dispute_cleared disputeTimeout_of_dispute_cleared
  inDispute_of_timelock_settled disputeTimeout_of_timelock_settled
  channel_of_timelock_settled channel_of_emergency_paid
  channel_of_channel_opened channel_of_dispute_cleared
  channel_of_dispute_raised channel_of_channel_closed
  channel_of_apply_update : obs.

(** Read a field of the storage a call leaves. *)
Ltac observe :=
  autorewrite with obs;
  change (inDispute_of ?i (pay ?a ?b ?s)) with (inDispute_of i s);
  change (disputeTimeout_of ?i (pay ?a ?b ?s)) with (disputeTimeout_of i s);
  change (channel_of ?i (pay ?a ?b ?s)) with (channel_of i s);
  change (inDispute_of ?i (log ?e ?s)) with (inDispute_of i s);
  change (disputeTimeout_of ?i (log ?e ?s)) with (disputeTimeout_of i s);
  change (channel_of ?i (log ?e ?s)) with (channel_of i s);
  autorewrite with obs;
  by_cases.

(** X5: a dispute outlasts every other call.  When a call goes through while
    an active channel is in dispute, either the call is one of the two that
    end the dispute (and the flag is then cleared), or the channel is still
    in dispute with the same deadline, and its record is untouched unless
    the call is an [openChannel] that computes the same identifier. *)
Theorem X5_dispute_outlasts_other_calls env c st st' id :
  dispatch env c st = Ok (tt, st') ->
  inDispute_of id st = true ->
  ChannelData.isActive (channel_of id st) = true ->
  (ends_dispute c id /\ inDispute_of id st' = false)
  \/ (inDispute_of id st' = true
      /\ disputeTimeout_of id st' = disputeTimeout_of id st
      /\ (opens env c id \/ channel_of id st' = channel_of id st)).
Proof.
  intros Hrun Hd Ha. apply dispatch_Ok in Hrun.
  destruct c; simpl in Hrun |- *; unfold valid_update in *; invert_effect.
  all: try (right; observe; splits; auto; congruence).
  all: destruct (N.eq_dec channelId id); [left|right];
    observe; splits; auto; congruence.
Qed.

(** The ether a transfer moves shows up in the payment trace. *)
Lemma sum_payments_from (l : list (address * uint256)) (x : N) :
  fold_right (fun p acc => snd p + acc) x l
  = fold_right (fun p acc => snd p + acc) 0 l + x.
Proof. induction l as [|p l IH]; simpl; [reflexivity|]. rewrite IH. lia. Qed.

Lemma paid_pay to amount st : paid (pay to amount st) = paid st + amount.
Proof.
  unfold paid, pay. simpl. rewrite fold_right_app. simpl.
  rewrite sum_payments_from. lia.
Qed.

Lemma accounting_pay to amount st :
  amount <= this_balance st ->
  this_balance (pay to amount st) + paid (pay to amount st)
  = this_balance st + paid st.
Proof. intros Hle. rewrite paid_pay. simpl. lia. Qed.

Lemma this_balance_pay_if_positive to amount st :
  this_balance (pay_if_positive to amount st) = this_balance st - amount.
Proof.
  unfold pay_if_positive. destruct (N.ltb_spec 0 amount); simpl; lia.
Qed.

Lemma paid_pay_if_positive to amount st :
  paid (pay_if_positive to amount st) = paid st + amount.
Proof.
  unfold pay_if_positive. destruct (N.ltb_spec 0 amount).
  - apply paid_pay.
  - lia.
Qed.

Lemma accounting_channel_closed channelId st :
  total (channel_of channelId st) <= this_balance st ->
  this_balance (channel_closed channelId st)
  + paid (channel_closed channelId st)
  = this_balance st + paid st.
Proof.
  unfold channel_closed, total. intros Hle.
  change (paid (log ?e ?s)) with (paid s).
  change (this_balance (log ?e ?s)) with (this_balance s).
  rewrite !paid_pay_if_positive, !this_balance_pay_if_positive.
  change (paid (update_channel ?i ?f ?s)) with (paid s).
  change (this_balance (update_channel ?i ?f ?s)) with (this_balance s).
  lia.
Qed.

Lemma accounting_timelock_settled channelId st :
  total (channel_of channelId st) <= this_balance st ->
  this_balance (timelock_settled channelId st)
  + paid (timelock_settled channelId st)
  = this_balance st + paid st.
Proof.
  unfold timelock_settled. intros Hle.
  change (paid (log ?e ?s)) with (paid s).
  change (this_balance (log ?e ?s)) with (this_balance s).
  rewrite !paid_pay. simpl this_balance.
  change (paid (set_inDispute ?f ?s)) with (paid s).
  change (paid (update_channel ?i ?f ?s)) with (paid s).
  pose proof (N.Div0.div_le_upper_bound (total (channel_of channelId st)) 2
                (total (channel_of channelId st))) as Hhalf.
  generalize dependent (total (channel_of channelId st) / 2). intros half.
  lia.
Qed.

Lemma accounting_emergency_paid channelId st :
  total (channel_of channelId st) <= this_balance st ->
  this_balance (emergency_paid channelId st)
  + paid (emergency_paid channelId st)
  = this_balance st + paid st.
Proof.
  unfold emergency_paid, total. intros Hle.
  change (paid (update_channel ?i ?f ?s)) with (paid s).
  change (this_balance (update_channel ?i ?f ?s)) with (this_balance s).
  rewrite !paid_pay. simpl this_balance. lia.
Qed.

(** X10: what each call pays.  Whenever a call goes through, the transfers
    it makes add up to [outflow]: the balance sum stored for the channel
    before the call for closeChannel (with or without a final update),
    withdrawTimelock and emergencyWithdraw, the relayer fee for
    relayTransaction, the whole balance for withdrawFees, and nothing for
    every other call; the contract's balance changes by the ether the call
    brought less that amount. *)
Theorem X10_what_each_call_pays env c st st' :
  dispatch env c st = Ok (tt, st') ->
  paid st' = paid st + outflow c st
  /\ outflow c st <= this_balance st + call_value c
  /\ this_balance st' = this_balance st + call_value c - outflow c st.
Proof.
  intros Hrun.
  pose proof Hrun as Heff. apply dispatch_Ok in Heff.
  assert (Hcons : this_balance st' + paid st'
                  = this_balance st + paid st + call_value c).
  { destruct c; simpl in Heff |- *;
      unfold payable_now, payout_possible in *; invert_effect;
      rewrite ?N.add_0_r.
    - unfold channel_opened, paid. simpl. lia.
    - reflexivity.
    - by rewrite accounting_channel_closed.
    - by rewrite accounting_channel_closed.
    - reflexivity.
    - reflexivity.
    - by rewrite accounting_timelock_settled.
    - reflexivity.
    - reflexivity.
    - reflexivity.
    - by rewrite accounting_pay.
    - by rewrite accounting_pay.
    - reflexivity.
    - by rewrite accounting_emergency_paid.
    - reflexivity.
    - reflexivity. }
  assert (Hpaid : paid st' = paid st + outflow c st).
  { clear Hcons.
    destruct c; simpl in Heff |- *; unfold valid_update in *; invert_effect;
      rewrite ?N.add_0_r; try reflexivity.
    - (* closeChannel with a final update *)
      unfold channel_closed.
      change (paid (log ?e ?s)) with (paid s).
      rewrite !paid_pay_if_positive.
      change (paid (update_channel ?i ?f ?s)) with (paid s).
      change (paid (apply_update ?u ?s)) with (paid s).
      rewrite channel_of_apply_update.
      destruct (N.eqb_spec (StateUpdate.channelId finalUpdate) channelId)
        as [Heq|Hne]; try rewrite Heq in *; unfold total in *; simpl; lia.
    - (* closeChannel at the stored balances *)
      unfold channel_closed.
      change (paid (log ?e ?s)) with (paid s).
      rewrite !paid_pay_if_positive.
      change (paid (update_channel ?i ?f ?s)) with (paid s).
      unfold total. lia.
    - (* withdrawTimelock *)
      unfold timelock_settled.
      change (paid (log ?e ?s)) with (paid s).
      rewrite !paid_pay.
      change (paid (set_inDispute ?f ?s)) with (paid s).
      change (paid (update_channel ?i ?f ?s)) with (paid s).
      pose proof (N.Div0.div_le_upper_bound (total (channel_of channelId st))
                    2 (total (channel_of channelId st))) as Hhalf.
      generalize dependent (total (channel_of channelId st) / 2).
      intros half. lia.
    - (* relayTransaction *)
      rewrite paid_pay. reflexivity.
    - (* withdrawFees *)
      rewrite paid_pay. reflexivity.
    - (* emergencyWithdraw, nothing stored *)
      lia.
    - (* emergencyWithdraw *)
      unfold emergency_paid.
      change (paid (update_channel ?i ?f ?s)) with (paid s).
      rewrite !paid_pay. unfold total. lia. }
  splits; [exact Hpaid|lia|lia].
Qed.

(** ** The shape of stored channel records *)

Lemma channel_wf_total c :
  c = zero \/ channel_wf c -> total c <= MAX_UINT256.
Proof.
  intros [->|(_ & _ & _ & _ & Ht)]; [|exact Ht].
  apply N.leb_le. vm_compute. reflexivity.
Qed.

Lemma channel_wf_active c :
  c = zero \/ channel_wf c -> ChannelData.isActive c = true -> channel_wf c.
Proof. intros [->|Hwf] Ha; [discriminate Ha|exact Hwf]. Qed.

Lemma channel_wf_with_isActive c :
  c = zero \/ channel_wf c ->
  with_isActive false c = zero \/ channel_wf (with_isActive false c).
Proof. intros [->|Hwf]; [by left|by right]. Qed.

Lemma channel_wf_with_balances c :
  c = zero \/ channel_wf c ->
  with_balances 0 0 c = zero \/ channel_wf (with_balances 0 0 c).
Proof.
  intros [->|(? & ? & ? & [? ?] & ?)]; [by left|right].
  unfold channel_wf, total. simpl. splits; auto.
  apply N.leb_le. vm_compute. reflexivity.
Qed.

Lemma dispatch_channel_wf env c st st' :
  dispatch env c st = Ok (tt, st') ->
  (forall id, channel_of id st = zero \/ channel_wf (channel_of id st)) ->
  forall id, channel_of id st' = zero \/ channel_wf (channel_of id st').
Proof.
  intros Hrun Hinv id. apply dispatch_Ok in Hrun.
  pose proof (Hinv id) as Hid.
  destruct c; simpl in Hrun; unfold valid_update in *; invert_effect;
    observe; auto using channel_wf_with_isActive, channel_wf_with_balances.
  all: try (right; unfold channel_wf, total; simpl; splits; auto; lia).
  all: try (apply channel_wf_with_isActive; observe; auto).
  all: try match goal with
    | Ha : ChannelData.isActive (channel_of ?i _) = true |- _ =>
        destruct (channel_wf_active _ (Hinv i) Ha) as (? & ? & ? & ? & ?);
        right; unfold channel_wf, total; simpl; splits; auto; lia
    end.
Qed.

Lemma reachable_channel_wf st id :
  reachable st ->
  channel_of id st = zero \/ channel_wf (channel_of id st).
Proof.
  intros Hst. revert id.
  induction Hst as [deployer oracle|st env c Hst IH]; intros id.
  - by left.
  - unfold exec. destruct (dispatch env c st) as [[[] st']|e] eqn:Hrun; auto.
    eapply dispatch_channel_wf; eauto.
Qed.

(** X11: every channel record the contract can hold is either untouched
    (all zero) or has the shape [openChannel] enforces: two distinct,
    non-zero participants, a timeout within the bounds and a balance sum
    that fits a [uint256]; an active channel is of the second kind.  So the
    sums [withdrawTimelock] and [emergencyWithdraw] compute never
    overflow. *)
Theorem X11_stored_channels_are_well_formed st id :
  reachable st ->
  (channel_of id st = zero \/ channel_wf (channel_of id st))
  /\ (ChannelData.isActive (channel_of id st) = true ->
      channel_wf (channel_of id st))
  /\ (forall env code, withdrawTimelock env id st <> Err (Panic code))
  /\ (forall env code, emergencyWithdraw env id st <> Err (Panic code)).
Proof.
  intros Hst. pose proof (reachable_channel_wf st id Hst) as Hwf.
  pose proof (channel_wf_total _ Hwf) as Ht. unfold total in Ht.
  apply N.leb_le in Ht.
  splits; auto using channel_wf_active.
  - intros env code. unfold withdrawTimelock. unfold_monad.
    assert (Hhalf : ((ChannelData.balance1 (channel_of id st)
                      + ChannelData.balance2 (channel_of id st)) / 2
                     <=? ChannelData.balance1 (channel_of id st)
                         + ChannelData.balance2 (channel_of id st)) = true).
    { apply N.leb_le. apply N.Div0.div_le_upper_bound. lia. }
    repeat match goal with
    | |- context [if ?c then _ else _] =>
        destruct c eqn:?; simpl; try discriminate
    end;
      match goal with
      | Hx : (_ <=? _) = false |- _ =>
          change (channel_of id (set_inDispute ?f ?s))
            with (channel_of id s) in Hx;
          rewrite channel_of_update_channel, N.eqb_refl in Hx;
          unfold with_isActive in Hx;
          cbn [ChannelData.balance1 ChannelData.balance2] in Hx;
          congruence
      end.
  - intros env code. unfold emergencyWithdraw. unfold_monad.
    repeat match goal with
    | |- context [if ?c then _ else _] =>
        destruct c eqn:?; simpl; try discriminate
    end; congruence.
Qed.

(** X12: what no call does to a channel record.  Apart from an
    [openChannel] that computes the same identifier, a call that goes
    through leaves a channel's participants and timeout as they are, never
    lowers its nonce, never reactivates it, and changes the sum of its two
    balances only when it is [emergencyWithdraw] for that channel. *)
Theorem X12_channel_record_history env c st st' id :
  dispatch env c st = Ok (tt, st') ->
  opens env c id
  \/ (ChannelData.participant1 (channel_of id st')
      = ChannelData.participant1 (channel_of id st)
      /\ ChannelData.participant2 (channel_of id st')
         = ChannelData.participant2 (channel_of id st)
      /\ ChannelData.timeout (channel_of id st')
         = ChannelData.timeout (channel_of id st)
      /\ ChannelData.nonce (channel_of id st)
         <= ChannelData.nonce (channel_of id st')
      /\ (ChannelData.isActive (channel_of id st') = true ->
          ChannelData.isActive (channel_of id st) = true)
      /\ (total (channel_of id st') = total (channel_of id st)
          \/ c = EmergencyWithdraw id)).
Proof.
  intros Hrun. apply dispatch_Ok in Hrun.
  destruct c; simpl in Hrun |- *; unfold valid_update in *; invert_effect.
  1: destruct (N.eq_dec (channel_id participant1 participant2 env) id);
    [by left|].
  all: right; observe; unfold total in *; simpl;
    splits; auto; try lia; try discriminate; try congruence.
Qed.

(** ** Administration *)

(** X14: switching a relayer on and off.  The owner's
    [setRelayerAuthorization] always goes through; it sets the flag of that
    relayer and of no other, and touches neither channels nor ether.  With
    the flag off every relayed update of that relayer is rejected with
    "Unauthorized relayer"; with the flag on a relayed update goes through
    exactly when the relayer's signature verifies, the update is valid and
    the fee can be paid. *)
Theorem X14_relayer_authorization env relayer a st :
  msg_sender env = owner st ->
  exists st',
    setRelayerAuthorization env relayer a st = Ok (tt, st')
    /\ authorized relayer st' = a
    /\ (forall r, r <> relayer -> authorized r st' = authorized r st)
    /\ channels st' = channels st
    /\ this_balance st' = this_balance st
    /\ payments st' = payments st
    /\ (a = false ->
        forall update sig,
          relayTransaction update relayer sig st' = Err UnauthorizedRelayer)
    /\ (a = true ->
        forall update sig,
          (exists st'', relayTransaction update relayer sig st'
                        = Ok (tt, st''))
          <-> verifies (relayHash update relayer) sig relayer
              /\ valid_update update st
              /\ payable_now relayer (relayerFee st) st).
Proof.
  intros Hs. eexists. split.
  { apply setRelayerAuthorization_Ok. split; [exact Hs|reflexivity]. }
  set (st' := log _ _).
  assert (Hauth : forall r, authorized r st'
                            = if relayer =? r then a else authorized r st).
  { intros r. unfold authorized, st'. simpl. apply mget_mset. }
  splits; try reflexivity.
  - by rewrite Hauth, N.eqb_refl.
  - intros r Hne. rewrite Hauth.
    destruct (N.eqb_spec relayer r); congruence.
  - intros -> update sig. unfold relayTransaction. unfold_monad.
    by rewrite Hauth, N.eqb_refl.
  - intros -> update sig. split.
    + intros [st'' Hrun].
      apply relayTransaction_Ok in Hrun as (_ & Hsig & Hv & Hpay & _).
      splits; auto.
    + intros (Hsig & Hv & Hpay). eexists. apply relayTransaction_Ok.
      splits; [|exact Hsig|exact Hv|exact Hpay|reflexivity].
      by rewrite Hauth, N.eqb_refl.
Qed.

(** X15: new fees apply to the next call.  The owner's [updateFees] always
    goes through, whatever the two amounts, and touches neither channels
    nor ether; from then on [openChannel] asks for the deposits plus the new
    channel fee, and a relayed update pays the new relayer fee. *)
Theorem X15_updateFees_takes_effect env cf rf st :
  msg_sender env = owner st ->
  exists st',
    updateFees env cf rf st = Ok (tt, st')
    /\ channelFee st' = cf /\ relayerFee st' = rf
    /\ channels st' = channels st
    /\ this_balance st' = this_balance st
    /\ payments st' = payments st
    /\ (forall env' value p1 p2 amount1 amount2 timeout,
          (exists r, openChannel env' value p1 p2 amount1 amount2 timeout st'
                     = Ok r)
          <-> p1 <> p2 /\ p1 <> 0 /\ p2 <> 0
              /\ MIN_TIMEOUT <= timeout <= MAX_TIMEOUT
              /\ amount1 + amount2 + cf <= MAX_UINT256
              /\ amount1 + amount2 + cf <= value)
    /\ (forall update relayer sig st'',
          relayTransaction update relayer sig st' = Ok (tt, st'') ->
          payments st'' = payments st ++ [(relayer, rf)]
          /\ this_balance st'' = this_balance st - rf
          /\ rf <= this_balance st).
Proof.
  intros Hs. eexists. split.
  { apply updateFees_Ok. split; [exact Hs|reflexivity]. }
  set (st' := log _ _). splits; try reflexivity.
  - intros env' value p1 p2 amount1 amount2 timeout. split.
    + intros [r Hrun]. apply openChannel_Ok in Hrun. tauto.
    + intros Hc. eexists. apply openChannel_Ok.
      change (channelFee st') with cf. splits; try tauto.
  - intros update relayer sig st'' Hrun.
    apply relayTransaction_Ok in Hrun as (_ & _ & _ & Hpay & [= ->]).
    destruct Hpay as (Hle & _). splits; auto.
Qed.

(** ** Signatures *)

(** X16: the signature view agrees with the update path.  [isValidSignature]
    never writes; it answers true exactly when the signature recovers the
    given signer over the hash of (channelId, nonce, balance1, balance2),
    whatever the stored channel; and [updateChannel] accepts an update
    exactly when its channel is active and undisputed, the nonce is higher,
    the balance sum is kept, and the view answers true for each
    participant's signature. *)
Theorem X16_isValidSignature_agrees_with_updateChannel update st :
  (forall sig signer st0 r,
     signature_view update sig signer st0 = Ok r -> snd r = st0)
  /\ (forall sig signer st0,
        signature_view update sig signer st0 = Ok (true, st0)
        <-> verifies (_getStateUpdateHash update) sig signer)
  /\ ((exists st', updateChannel update st = Ok (tt, st'))
      <-> ChannelData.isActive (channel_of (StateUpdate.channelId update) st)
          = true
          /\ inDispute_of (StateUpdate.channelId update) st = false
          /\ ChannelData.nonce (channel_of (StateUpdate.channelId update) st)
             < StateUpdate.nonce update
          /\ StateUpdate.balance1 update + StateUpdate.balance2 update
             <= MAX_UINT256
          /\ StateUpdate.balance1 update + StateUpdate.balance2 update
             = total (channel_of (StateUpdate.channelId update) st)
          /\ signature_view update (StateUpdate.signature1 update)
               (ChannelData.participant1
                  (channel_of (StateUpdate.channelId update) st)) st
             = Ok (true, st)
          /\ signature_view update (StateUpdate.signature2 update)
               (ChannelData.participant2
                  (channel_of (StateUpdate.channelId update) st)) st
             = Ok (true, st)).
Proof.
  assert (Hview : forall sig signer st0,
            signature_view update sig signer st0 = Ok (true, st0)
            <-> verifies (_getStateUpdateHash update) sig signer).
  { intros sig signer st0. unfold signature_view, isValidSignature, verifies.
    unfold _getStateUpdateHash. simpl. unfold_monad.
    destruct (recover _ sig) as [a|]; [|split; discriminate].
    destruct (N.eqb_spec a signer) as [->|Hne]; split; auto; congruence. }
  splits.
  - intros sig signer st0 r. unfold signature_view, isValidSignature. unfold_monad.
    destruct (recover _ sig); [|discriminate]. by intros [= <-].
  - exact Hview.
  - rewrite !Hview. split.
    + intros [st' Hrun]. apply updateChannel_Ok in Hrun as [Hv _]. exact Hv.
    + intros Hv. eexists. apply updateChannel_Ok. split; [exact Hv|reflexivity].
Qed.

(** X21: the relayer's signature covers the channel and the nonce only.
    When a relayed update goes through, any other update of the same
    channel with the same nonce that the participants have signed goes
    through with the very same relayer signature: the relayer is not bound
    to the balances it was given. *)
Theorem X21_relayer_signature_leaves_balances_open update update' relayer sig
  st st1 :
  relayTransaction update relayer sig st = Ok (tt, st1) ->
  StateUpdate.channelId update' = StateUpdate.channelId update ->
  StateUpdate.nonce update' = StateUpdate.nonce update ->
  valid_update update' st ->
  relayTransaction update' relayer sig st
  = Ok (tt, pay relayer (relayerFee st) (apply_update update' st)).
Proof.
  intros Hrun Hid Hn Hv'.
  apply relayTransaction_Ok in Hrun as (Ha & Hsig & _ & Hpay & _).
  apply relayTransaction_Ok. splits; auto.
  unfold relayHash in *. by rewrite Hid, Hn.
Qed.

(** ** Settlement by the owner *)

Lemma with_isActive_false_inactive c :
  ChannelData.isActive c = false -> with_isActive false c = c.
Proof. destruct c. simpl. by intros ->. Qed.

(** The record of an inactive channel is rewritten only by an
    [openChannel] that computes its identifier and by [emergencyWithdraw]
    with a balance to pay. *)
Lemma dispatch_keeps_inactive_record env c st st' id :
  dispatch env c st = Ok (tt, st') ->
  ChannelData.isActive (channel_of id st) = false ->
  ~ opens env c id ->
  channel_of id st' = channel_of id st
  \/ (c = EmergencyWithdraw id
      /\ 0 < total (channel_of id st)
      /\ channel_of id st' = with_balances 0 0 (channel_of id st)).
Proof.
  intros Hrun Ha Hopen. apply dispatch_Ok in Hrun.
  destruct c; simpl in Hrun, Hopen; unfold valid_update in *; invert_effect.
  all: try (left; observe; try reflexivity; try congruence;
            by apply with_isActive_false_inactive).
  - observe; [right; splits; auto|left; reflexivity].
Qed.

(** A property of the storage that every accepted call among [txs] keeps
    holds after the whole run. *)
Lemma run_keeps (P : State -> Prop) (allowed : Env * Call -> Prop) :
  (forall env c st st',
     allowed (env, c) -> P st -> dispatch env c st = Ok (tt, st') -> P st') ->
  forall txs st, Forall allowed txs -> P st -> P (run txs st).
Proof.
  intros Hstep txs. induction txs as [|[env c] txs IH]; intros st Hall HP.
  - exact HP.
  - apply Forall_cons_1 in Hall as [Hok Hall]. simpl. apply IH; [exact Hall|].
    unfold exec. destruct (dispatch env c st) as [[[] st']|e] eqn:Hrun.
    + by apply (Hstep env c st st').
    + exact HP.
Qed.

(** X17: [emergencyWithdraw] pays a channel at most once.  After a call
    that went through the channel is inactive with both stored balances
    zero, and it stays so through every later run of calls none of which is
    an [openChannel] that computes its identifier; in the storage after such
    a run a call by the owner goes through without paying or changing
    anything. *)
Theorem X17_emergencyWithdraw_pays_once env channelId st st' :
  emergencyWithdraw env channelId st = Ok (tt, st') ->
  forall txs,
    Forall (fun tx => ~ opens (fst tx) (snd tx) channelId) txs ->
    ChannelData.isActive (channel_of channelId (run txs st')) = false
    /\ ChannelData.balance1 (channel_of channelId (run txs st')) = 0
    /\ ChannelData.balance2 (channel_of channelId (run txs st')) = 0
    /\ forall env',
         msg_sender env' = owner (run txs st') ->
         emergencyWithdraw env' channelId (run txs st')
         = Ok (tt, run txs st').
Proof.
  intros Hrun txs Hall.
  set (settled := fun s : State =>
         ChannelData.isActive (channel_of channelId s) = false
         /\ ChannelData.balance1 (channel_of channelId s) = 0
         /\ ChannelData.balance2 (channel_of channelId s) = 0).
  assert (Hfirst : settled st').
  { destruct (N.eq_dec (total (channel_of channelId st)) 0) as [Hz|Hnz].
    - apply (emergencyWithdraw_nothing _ _ _ _ Hz) in Hrun
        as (_ & Ha & [= ->]).
      unfold total in Hz. unfold settled. splits; [exact Ha|lia|lia].
    - assert (Hpos : 0 < total (channel_of channelId st)) by lia.
      apply (emergencyWithdraw_Ok _ _ _ _ Hpos) in Hrun
        as (_ & Ha & _ & _ & _ & [= ->]).
      unfold settled. rewrite channel_of_emergency_paid, N.eqb_refl.
      splits; [exact Ha|reflexivity|reflexivity]. }
  assert (Hlater : settled (run txs st')).
  { apply (run_keeps settled
             (fun tx => ~ opens (fst tx) (snd tx) channelId));
      [|exact Hall|exact Hfirst].
    intros env0 c s s' Hok (Ha & Hb1 & Hb2) Hstep.
    destruct (dispatch_keeps_inactive_record _ _ _ _ channelId Hstep Ha Hok)
      as [Hsame|(_ & Hpos & _)].
    - unfold settled. by rewrite Hsame.
    - unfold total in Hpos. lia. }
  destruct Hlater as (Ha & Hb1 & Hb2). splits; auto.
  intros env' Hs. apply emergencyWithdraw_nothing; auto.
  unfold total. lia.
Qed.

Lemma payments_update_channel id f st :
  payments (update_channel id f st) = payments st.
Proof. reflexivity. Qed.

Lemma payments_pay to amount st :
  payments (pay to amount st) = payments st ++ [(to, amount)].
Proof. reflexivity. Qed.


(** ** Unknown keys *)

(** X19: identifiers the contract has never seen.  A channel identifier
    with no stored record reads as the all-zero record; every update of it,
    direct or relayed, is rejected, no caller other than the zero address
    passes the participant check of [closeChannel], [disputeChannel],
    [resolveDispute] and [withdrawTimelock], and the owner's
    [emergencyWithdraw] goes through without paying or changing anything.  A
    relayer with no stored flag is unauthorised. *)
Theorem X19_unknown_keys st id :
  channels st !! id = None ->
  getChannel id st = Ok (zero, st)
  /\ (forall update,
        StateUpdate.channelId update = id ->
        updateChannel update st = Err ChannelInactive
        /\ forall relayer sig st',
             relayTransaction update relayer sig st <> Ok (tt, st'))
  /\ (forall env update,
        msg_sender env <> 0 ->
        closeChannel env id update st = Err NotParticipant
        /\ disputeChannel env id st = Err NotParticipant
        /\ resolveDispute env id update st = Err NotParticipant
        /\ withdrawTimelock env id st = Err NotParticipant)
  /\ (forall env,
        msg_sender env = owner st ->
        emergencyWithdraw env id st = Ok (tt, st))
  /\ (forall relayer update sig,
        authorizedRelayers st !! relayer = None ->
        relayTransaction update relayer sig st = Err UnauthorizedRelayer).
Proof.
  intros Hnone.
  assert (Hch : channel_of id st = zero)
    by (unfold channel_of, mget; by rewrite Hnone).
  splits.
  - unfold getChannel. unfold_monad. by rewrite Hch.
  - intros update <-. split.
    + unfold updateChannel. unfold_monad. by rewrite Hch.
    + intros relayer sig st' Hrun.
      apply relayTransaction_Ok in Hrun as (_ & _ & (Ha & _) & _).
      rewrite Hch in Ha. discriminate.
  - intros env update Hne.
    assert (Hp : (msg_sender env =? 0) || (msg_sender env =? 0) = false)
      by (destruct (N.eqb_spec (msg_sender env) 0); [contradiction|done]).
    splits.
    + unfold closeChannel. unfold_monad. rewrite Hch. simpl. by rewrite Hp.
    + unfold disputeChannel. unfold_monad. rewrite Hch. simpl. by rewrite Hp.
    + unfold resolveDispute. unfold_monad. rewrite Hch. simpl. by rewrite Hp.
    + unfold withdrawTimelock. unfold_monad. rewrite Hch. simpl.
      by rewrite Hp.
  - intros env Hs. apply emergencyWithdraw_nothing; rewrite Hch; auto.
  - intros relayer update sig Hr. unfold relayTransaction. unfold_monad.
    unfold authorized, mget. by rewrite Hr.
Qed.

(** ** What the contract hashes *)

Lemma byte_of_N_inj v v' :
  byte_of_N v = byte_of_N v' -> v mod 256 = v' mod 256.
Proof.
  unfold byte_of_N. intros Heq.
  assert (Hb : forall n, exists b, Byte.of_N (n mod 256) = Some b).
  { intros n. destruct (Byte.of_N (n mod 256)) as [b|] eqn:E; [eauto|].
    apply Byte.of_N_None_iff in E.
    pose proof (N.mod_upper_bound n 256). lia. }
  destruct (Hb v) as [b E], (Hb v') as [b' E'].
  rewrite E, E' in Heq. simpl in Heq. subst b'.
  apply Byte.to_of_N in E, E'. congruence.
Qed.

Lemma length_be_bytes len v : length (be_bytes len v) = len.
Proof.
  revert v. induction len as [|k IH]; intros v; simpl; [reflexivity|].
  rewrite length_app, IH. simpl. lia.
Qed.

Lemma be_bytes_inj len v v' :
  v < 256 ^ N.of_nat len -> v' < 256 ^ N.of_nat len ->
  be_bytes len v = be_bytes len v' -> v = v'.
Proof.
  revert v v'. induction len as [|k IH]; intros v v' Hv Hv' Heq.
  - simpl in Hv, Hv'. lia.
  - simpl in Heq. apply app_inj_tail in Heq as [Hhi Hlo].
    apply byte_of_N_inj in Hlo.
    rewrite Nat2N.inj_succ, N.pow_succ_r' in Hv, Hv'.
    assert (Hq : v / 256 = v' / 256).
    { apply IH; auto; apply N.Div0.div_lt_upper_bound; lia. }
    rewrite (N.Div0.div_mod v 256), (N.Div0.div_mod v' 256). congruence.
Qed.

Lemma length_encode_one v : length (encode_one v) = packed_width v.
Proof. destruct v; apply length_be_bytes. Qed.

Lemma length_encodePacked vs :
  length (encodePacked vs) = list_sum (map packed_width vs).
Proof.
  unfold encodePacked. induction vs as [|v vs IH]; [reflexivity|].
  cbn [map concat list_sum]. by rewrite length_app, length_encode_one, IH.
Qed.

Lemma encode_one_inj v w :
  same_type v w -> in_range v -> in_range w ->
  encode_one v = encode_one w -> v = w.
Proof.
  assert (H160 : 256 ^ N.of_nat 20 = 2 ^ 160) by (vm_compute; reflexivity).
  assert (H256 : 256 ^ N.of_nat 32 = MAX_UINT256 + 1)
    by (vm_compute; reflexivity).
  destruct v, w; cbn [encode_one same_type in_range]; try contradiction;
    intros _ Hv Hw Heq; f_equal;
    apply be_bytes_inj in Heq; auto; rewrite ?H160, ?H256; lia.
Qed.

(** X20: what is signed is unambiguous.  [abi.encodePacked] of values of
    fixed-width types takes the sum of their widths, and two packings of
    lists of the same types whose values are in range are equal only when
    the lists are: the bytes hashed by [_getStateUpdateHash] determine
    (channelId, nonce, balance1, balance2), those hashed for the relayer
    determine (channelId, nonce, relayer), those hashed by [openChannel]
    determine (participant1, participant2, timestamp, block number).  The
    three have 128, 84 and 104 bytes, so none can stand for another. *)
Theorem X20_packed_encoding_is_injective vs ws :
  Forall2 same_type vs ws ->
  Forall in_range vs -> Forall in_range ws ->
  length (encodePacked vs) = list_sum (map packed_width vs)
  /\ (encodePacked vs = encodePacked ws -> vs = ws)
  /\ forall channelId nonce balance1 balance2 channelId' nonce' relayer
            participant1 participant2 timestamp number,
       let state_update :=
         encodePacked [abi_bytes32 channelId; abi_uint256 nonce;
                       abi_uint256 balance1; abi_uint256 balance2] in
       let relay :=
         encodePacked [abi_bytes32 channelId'; abi_uint256 nonce';
                       abi_address relayer] in
       let opening :=
         encodePacked [abi_address participant1; abi_address participant2;
                       abi_uint256 timestamp; abi_uint256 number] in
       state_update <> relay /\ state_update <> opening /\ relay <> opening.
Proof.
  intros Hty Hvs Hws. splits.
  - apply length_encodePacked.
  - revert Hvs Hws. unfold encodePacked.
    induction Hty as [|v w vs ws Hvw Hty IH]; intros Hvs Hws Heq;
      [reflexivity|].
    apply Forall_cons_1 in Hvs as [Hv Hvs], Hws as [Hw Hws].
    cbn [map concat] in Heq.
    apply app_inj_1 in Heq as [Hhead Htail].
    + f_equal; [by apply encode_one_inj|by apply IH].
    + rewrite !length_encode_one. by destruct v, w.
  - intros. subst state_update relay opening.
    splits; intros Heq; apply (f_equal length) in Heq;
      rewrite !length_encodePacked in Heq; discriminate Heq.
Qed.

(** ** The oracle address *)

Lemma oracle_blind_ret {A} (a : A) : oracle_blind (ret a).
Proof. by intros o st. Qed.

Lemma oracle_blind_fail {A} e : oracle_blind (@fail A e).
Proof. by intros o st. Qed.

Lemma oracle_blind_bind {A B} (m : M A) (k : A -> M B) :
  oracle_blind m -> (forall a, oracle_blind (k a)) -> oracle_blind (bind m k).
Proof.
  intros Hm Hk o st. unfold bind. rewrite Hm.
  destruct (m st) as [[a st']|e]; simpl; [apply Hk|reflexivity].
Qed.

Lemma oracle_blind_gets {A} (f : State -> A) :
  (forall o st, f (set_yellowNetworkOracle o st) = f st) ->
  oracle_blind (gets f).
Proof. intros Hf o st. unfold gets. by rewrite Hf. Qed.

Lemma oracle_blind_modify (f : State -> State) :
  (forall o st, f (set_yellowNetworkOracle o st)
                = set_yellowNetworkOracle o (f st)) ->
  oracle_blind (modify f).
Proof. intros Hf o st. unfold modify. by rewrite Hf. Qed.

Lemma oracle_blind_require cond reason : oracle_blind (require cond reason).
Proof. by destruct cond. Qed.

Lemma oracle_blind_when cond m :
  oracle_blind m -> oracle_blind (when cond m).
Proof. destruct cond; [done|]. intros _. apply oracle_blind_ret. Qed.

Lemma oracle_blind_checked_add a b : oracle_blind (checked_add a b).
Proof. unfold checked_add. by destruct (a + b <=? MAX_UINT256). Qed.

Lemma oracle_blind_checked_sub a b : oracle_blind (checked_sub a b).
Proof. unfold checked_sub. by destruct (b <=? a). Qed.

Lemma oracle_blind_transfer to amount : oracle_blind (transfer to amount).
Proof.
  intros o st. unfold transfer. simpl.
  by destruct ((amount <=? this_balance st) && negb (to =? this)
               && receives to).
Qed.

Lemma oracle_blind_isValidSignature messageHash signature signer :
  oracle_blind (_isValidSignature messageHash signature signer).
Proof.
  unfold _isValidSignature.
  destruct (recover _ signature);
    [apply oracle_blind_ret|apply oracle_blind_fail].
Qed.

Ltac oracle_blind :=
  repeat first
    [ apply oracle_blind_bind; [|intros ?]
    | apply oracle_blind_ret
    | apply oracle_blind_require
    | apply oracle_blind_when
    | apply oracle_blind_checked_add
    | apply oracle_blind_checked_sub
    | apply oracle_blind_transfer
    | apply oracle_blind_isValidSignature
    | apply oracle_blind_gets; reflexivity
    | apply oracle_blind_modify; reflexivity ].

Lemma oracle_blind_updateChannel update : oracle_blind (updateChannel update).
Proof.
  unfold updateChannel, onlyActive, notInDispute, emit. cbv zeta.
  oracle_blind.
Qed.

Lemma oracle_blind_dispatch env c :
  match c with
  | SetYellowNetworkOracle _ => True
  | _ => oracle_blind (dispatch env c)
  end.
Proof.
  pose proof oracle_blind_updateChannel as Hup.
  destruct c; simpl; [..|];
    unfold openChannel, closeChannel, disputeChannel, resolveDispute,
      withdrawTimelock, setRelayerAuthorization, updateFees,
      relayTransaction, withdrawFees, emergencyWithdraw, transferOwnership,
      renounceOwnership, onlyParticipant, onlyActive, notInDispute,
      onlyOwner, nonReentrant, emit;
    cbv zeta; oracle_blind; auto.
Qed.

(** X23: the oracle address is stored and never consulted.  Whatever
    address [setYellowNetworkOracle] stored, every call fails with the same
    error or goes through with the same result, and leaves the same storage
    up to the stored address itself; so do the two views. *)
Theorem X23_oracle_is_never_read _oracle env c st :
  dispatch env c (set_yellowNetworkOracle _oracle st)
  = match c with
    | SetYellowNetworkOracle _ => dispatch env c st
    | _ => with_oracle _oracle (dispatch env c st)
    end
  /\ (forall channelId,
        getChannel channelId (set_yellowNetworkOracle _oracle st)
        = with_oracle _oracle (getChannel channelId st))
  /\ (forall channelId nonce balance1 balance2 signature signer,
        isValidSignature channelId nonce balance1 balance2 signature signer
          (set_yellowNetworkOracle _oracle st)
        = with_oracle _oracle
            (isValidSignature channelId nonce balance1 balance2 signature
               signer st)).
Proof.
  splits.
  - pose proof (oracle_blind_dispatch env c) as Hc.
    destruct c; try apply Hc.
    simpl. unfold setYellowNetworkOracle. unfold_monad. simpl.
    by destruct (msg_sender env =? owner st).
  - intros channelId. by apply oracle_blind_gets.
  - intros. apply oracle_blind_isValidSignature.
Qed.

(** ** Opening and reading back *)

(** X22: what [openChannel] stores is what [getChannel] returns.  After a
    successful [openChannel] the view returns, under the identifier the call
    returned, the two participants and the two declared amounts, nonce 0,
    the timeout and the active flag; the declared amounts plus the fee are
    covered by the ether sent, one [ChannelOpened] event is logged, and
    unless an older dispute flag sits on the identifier either participant
    can raise a dispute at once. *)
Theorem X22_openChannel_then_getChannel env value p1 p2 amount1 amount2
  timeout st id st' :
  openChannel env value p1 p2 amount1 amount2 timeout st = Ok (id, st') ->
  getChannel id st'
  = Ok (ChannelData.mk p1 p2 amount1 amount2 0 timeout true, st')
  /\ amount1 + amount2 + channelFee st <= value
  /\ events st' = events st ++ [ChannelOpened id p1 p2 amount1 amount2]
  /\ forall env',
       msg_sender env' = p1 \/ msg_sender env' = p2 ->
       inDispute_of id st = false ->
       block_timestamp env' + DISPUTE_TIMEOUT <= MAX_UINT256 ->
       disputeChannel env' id st' = Ok (tt, dispute_raised env' id st').
Proof.
  intros Hrun.
  apply openChannel_Ok in Hrun as (_ & _ & _ & _ & _ & Hval & [= -> ->]).
  assert (Hch : channel_of (channel_id p1 p2 env)
                  (channel_opened env value p1 p2 amount1 amount2 timeout st)
                = ChannelData.mk p1 p2 amount1 amount2 0 timeout true)
    by (rewrite channel_of_channel_opened; by rewrite N.eqb_refl).
  splits.
  - unfold getChannel, gets. by rewrite Hch.
  - exact Hval.
  - reflexivity.
  - intros env' Hp Hd Hts. apply disputeChannel_Ok. rewrite Hch.
    splits; auto.
    unfold is_participant. simpl.
    destruct Hp as [->| ->]; rewrite N.eqb_refl; [reflexivity|].
    apply orb_true_r.
Qed.

End Properties.

(** * Scenario checks *)

Section Scenario.

#[local] Existing Instance Fixture.platform.

Import Fixture.

Example opened_channel :
  channel_of cid opened = ChannelData.mk alice bob ether ether 0 7200 true
  /\ this_balance opened = 2 * ether + ether / 1000
  /\ authorized carol opened = true.
Proof. vm_compute. auto. Qed.

Example scenario_A_accepted :
  updateChannel update1 opened = Ok (tt, apply_update update1 opened).
Proof. vm_compute. reflexivity. Qed.

Example scenario_A_replayed :
  updateChannel update1 (apply_update update1 opened) = Err InvalidNonce.
Proof. vm_compute. reflexivity. Qed.

Example scenario_D_unauthorized :
  authorized mallory opened = false
  /\ relayTransaction update1 mallory (relay_signature update1 mallory) opened
     = Err UnauthorizedRelayer.
Proof. vm_compute. auto. Qed.

Example disputed_channel :
  inDispute_of cid disputed = true
  /\ disputeTimeout_of cid disputed = t0 + 10 + DISPUTE_TIMEOUT.
Proof. vm_compute. auto. Qed.

Example swept_balance :
  this_balance swept = 0 /\ payments swept = [(admin, 2 * ether + ether / 1000)].
Proof. vm_compute. auto. Qed.

Example closed_channel :
  channel_of cid closed = ChannelData.mk alice bob ether ether 0 7200 false
  /\ payments closed = [(alice, ether); (bob, ether)]
  /\ this_balance closed = ether / 1000.
Proof. vm_compute. auto. Qed.

End Scenario.

(** * Witnesses and counterexamples *)

Section Witnesses.

#[local] Existing Instance Fixture.platform.

Import Fixture.

Lemma C2_witness :
  exists st',
    closeChannel (at_time (t0 + 30) bob) cid update1 opened = Ok (tt, st')
    /\ ether / 2 + 3 * ether / 2 = total (channel_of cid opened)
    /\ total (channel_of cid st') = total (channel_of cid opened).
Proof.
  eexists. split; [vm_compute; reflexivity|].
  apply (C2_balance_sum_conserved (FinalUpdate (at_time (t0 + 30) bob) cid)
           update1 opened).
  - vm_compute. reflexivity.
  - vm_compute. reflexivity.
Defined.

Lemma C4_witness :
  let forged :=
    with_signatures (StateUpdate.signature1 update1)
      (sign mallory (_getStateUpdateHash update1)) update1 in
  (exists e, updateChannel forged opened = Err e)
  /\ exec (updateChannel forged) opened = opened.
Proof.
  intros forged.
  apply (C4_both_signatures_required forged opened).
  - vm_compute. reflexivity.
  - vm_compute. reflexivity.
  - vm_compute. reflexivity.
  - vm_compute. reflexivity.
  - right. vm_compute. discriminate.
Defined.

Lemma reachable_opened : reachable opened.
Proof. apply run_reachable, reachable_deployed. Qed.

Lemma reachable_disputed_swept : reachable disputed_swept.
Proof. do 2 apply run_reachable. apply reachable_opened. Qed.

Lemma reachable_closed : reachable closed.
Proof. apply run_reachable, reachable_opened. Qed.

Lemma reachable_high_fee : reachable high_fee.
Proof. apply run_reachable, reachable_opened. Qed.

Lemma reachable_circle_disputed : reachable circle_disputed.
Proof. do 2 apply run_reachable. apply reachable_opened. Qed.

Lemma reachable_circle_closed : reachable circle_closed.
Proof. do 2 apply run_reachable. apply reachable_opened. Qed.

(** C1 (dispute resolution): the code rejects what the specification says
    it accepts. The channel [cid] is active and disputed; before the deadline
    participant [bob] submits the update signed by both participants, with a
    greater nonce and the same balance sum, that [updateChannel] accepted
    before the dispute; [resolveDispute] reverts with "Channel in dispute",
    because the [notInDispute] guard of [updateChannel] is tested before the
    flag is cleared. *)
Theorem C1_resolveDispute_reverts :
  let env := at_time (t0 + 3600) bob in
  let channel := channel_of cid disputed in
  ChannelData.isActive channel = true
  /\ inDispute_of cid disputed = true
  /\ is_participant env channel = true
  /\ block_timestamp env < disputeTimeout_of cid disputed
  /\ StateUpdate.channelId update1 = cid
  /\ ChannelData.nonce channel < StateUpdate.nonce update1
  /\ StateUpdate.balance1 update1 + StateUpdate.balance2 update1
     = total channel
  /\ verifies (_getStateUpdateHash update1) (StateUpdate.signature1 update1)
       (ChannelData.participant1 channel)
  /\ verifies (_getStateUpdateHash update1) (StateUpdate.signature2 update1)
       (ChannelData.participant2 channel)
  /\ resolveDispute env cid update1 disputed = Err ChannelInDispute
  /\ exec (resolveDispute env cid update1) disputed = disputed.
Proof. cbv zeta. splits; vm_compute; reflexivity. Qed.

(** C5 (timeout split): the code strands what the specification says it
    pays out. The channel [circle_cid] of [alice] and the lending-circle
    contract [circle], which has no receive function, is active and
    disputed, its deadline has passed and the contract holds more than the
    channel's total. [withdrawTimelock] reverts at the transfer to [circle]
    for either participant and pays nobody; [closeChannel] is stopped by the
    dispute flag, [resolveDispute] by the deadline, [emergencyWithdraw] by
    the active flag: the channel's ether stays in the contract. *)
Theorem C5_withdrawTimelock_strands_funds :
  let after := t0 + 10 + DISPUTE_TIMEOUT + 1 in
  reachable circle_disputed
  /\ channel_of circle_cid circle_disputed
     = ChannelData.mk alice circle ether 0 0 7200 true
  /\ inDispute_of circle_cid circle_disputed = true
  /\ disputeTimeout_of circle_cid circle_disputed < after
  /\ this_balance circle_disputed = 3 * ether + 2 * (ether / 1000)
  /\ withdrawTimelock (at_time after alice) circle_cid circle_disputed
     = Err TransferFailed
  /\ withdrawTimelock (at_time after circle) circle_cid circle_disputed
     = Err TransferFailed
  /\ exec (withdrawTimelock (at_time after alice) circle_cid) circle_disputed
     = circle_disputed
  /\ closeChannel (at_time after alice) circle_cid no_update circle_disputed
     = Err ChannelInDispute
  /\ resolveDispute (at_time after alice) circle_cid update1 circle_disputed
     = Err (Revert "Dispute timeout exceeded")
  /\ emergencyWithdraw (at_time after admin) circle_cid circle_disputed
     = Err (Revert "Channel still active").
Proof.
  cbv zeta. split; [apply reachable_circle_disputed|].
  splits; vm_compute; reflexivity.
Qed.

(** Scenario C: with two participants that take ether, the timeout pays
    the two halves. *)
Lemma scenario_C_timeout_split :
  let env := at_time (t0 + 10 + DISPUTE_TIMEOUT + 1) bob in
  exists st',
    withdrawTimelock env cid disputed = Ok (tt, st')
    /\ payments st' = payments disputed ++ [(alice, ether); (bob, ether)]
    /\ ChannelData.isActive (channel_of cid st') = false
    /\ inDispute_of cid st' = false.
Proof.
  intros env.
  assert (Hp : is_participant env (channel_of cid disputed) = true)
    by (vm_compute; reflexivity).
  assert (Hd : inDispute_of cid disputed = true) by (vm_compute; reflexivity).
  assert (Hwf : balance_is_uint256 disputed) by (vm_compute; discriminate).
  assert (Ht : disputeTimeout_of cid disputed < block_timestamp env)
    by (vm_compute; reflexivity).
  destruct (proj1 (withdrawTimelock_split env cid disputed Hp Hd Hwf) Ht)
    as [Hiff Heff].
  destruct (proj2 Hiff) as [st' Hrun].
  { split; [vm_compute; discriminate|].
    repeat split; vm_compute; congruence. }
  exists st'. split; [exact Hrun|].
  destruct (Heff st' Hrun) as (Hpay & _ & _ & Ha & Hdis).
  splits; [|exact Ha|exact Hdis].
  rewrite Hpay. vm_compute. reflexivity.
Qed.

(** C6, as stated, fails: on the normally closed channel [cid] participant
    [alice] calls [withdrawTimelock], which reverts with "No active dispute",
    not with "Channel not active"; and [carol], who is no participant, gets
    "Not a channel participant" from [closeChannel]. *)
Lemma C6_counterexample :
  let env := at_time (t0 + 40) alice in
  reachable closed
  /\ ChannelData.isActive (channel_of cid closed) = false
  /\ withdrawTimelock env cid closed = Err NoActiveDispute
  /\ withdrawTimelock env cid closed <> Err ChannelInactive
  /\ closeChannel (at_time (t0 + 40) carol) cid no_update closed
     = Err NotParticipant.
Proof.
  cbv zeta. split; [apply reachable_closed|].
  splits; try (vm_compute; reflexivity). vm_compute. discriminate.
Qed.

Lemma C6_witness :
  let env := at_time (t0 + 40) alice in
  closeChannel env cid no_update closed = Err ChannelInactive
  /\ withdrawTimelock env cid closed = Err NoActiveDispute
  /\ exec (withdrawTimelock env cid) closed = closed.
Proof.
  intros env.
  assert (Ha : ChannelData.isActive (channel_of cid closed) = false)
    by (vm_compute; reflexivity).
  destruct (C6_inactive_channel_is_inert env cid closed reachable_closed Ha)
    as (Hclose & Htimelock & Hexec).
  splits.
  - destruct (Hclose no_update) as [-> _]. vm_compute. reflexivity.
  - rewrite Htimelock. vm_compute. reflexivity.
  - exact Hexec.
Defined.

(** C7 (fee withdrawal): the code sweeps what the specification says it
    leaves. With one open channel holding 1 ether for each participant and
    0.001 ether of fee collected, [withdrawFees] sends the owner the
    contract's whole balance, 2.001 ether; the channel is still active with
    its recorded balances, and neither [closeChannel] nor, after a dispute,
    [withdrawTimelock] can pay them any more. *)
Theorem C7_withdrawFees_sweeps_deposits :
  let late := at_time (t0 + 10 + DISPUTE_TIMEOUT + 1) bob in
  channelFee opened = ether / 1000
  /\ this_balance opened = 2 * ether + ether / 1000
  /\ withdrawFees (at_time (t0 + 20) admin) opened = Ok (tt, swept)
  /\ payments swept = payments opened ++ [(admin, 2 * ether + ether / 1000)]
  /\ this_balance swept = 0
  /\ channel_of cid swept = ChannelData.mk alice bob ether ether 0 7200 true
  /\ closeChannel (at_time (t0 + 30) alice) cid no_update swept
     = Err TransferFailed
  /\ inDispute_of cid disputed_swept = true
  /\ withdrawTimelock late cid disputed_swept = Err TransferFailed.
Proof. cbv zeta. splits; vm_compute; reflexivity. Qed.

(** C8, as stated, fails: the relayer [carol] is authorised, her signature
    verifies, [updateChannel] accepts the update, and yet
    [relayTransaction] reverts and changes nothing, because the contract
    holds less than the configured relayerFee. *)
Lemma C8_counterexample :
  let relayerSignature := relay_signature update1 carol in
  reachable high_fee
  /\ authorized carol high_fee = true
  /\ verifies (relayHash update1 carol) relayerSignature carol
  /\ updateChannel update1 high_fee = Ok (tt, apply_update update1 high_fee)
  /\ this_balance high_fee < relayerFee high_fee
  /\ relayTransaction update1 carol relayerSignature high_fee
     = Err TransferFailed
  /\ exec (relayTransaction update1 carol relayerSignature) high_fee
     = high_fee.
Proof.
  cbv zeta. split; [apply reachable_high_fee|].
  splits; vm_compute; reflexivity.
Qed.

Lemma C8_witness :
  let relayerSignature := relay_signature update1 carol in
  exists st',
    relayTransaction update1 carol relayerSignature opened = Ok (tt, st')
    /\ channel_of cid st'
       = ChannelData.mk alice bob (ether / 2) (3 * ether / 2) 1 7200 true
    /\ payments st' = payments opened ++ [(carol, ether / 10000)].
Proof.
  intros relayerSignature.
  destruct (C8_relayTransaction update1 carol relayerSignature opened)
    as (Hiff & Heff & _).
  destruct (proj2 Hiff) as [st' Hrun].
  { splits.
    - vm_compute. reflexivity.
    - vm_compute. reflexivity.
    - eexists. vm_compute. reflexivity.
    - repeat split; vm_compute; congruence. }
  exists st'. split; [exact Hrun|].
  destruct (Heff st' Hrun) as (st1 & Hup & -> & Hpay).
  split; [|rewrite Hpay; vm_compute; reflexivity].
  vm_compute in Hup. injection Hup as <-. vm_compute. reflexivity.
Defined.



Lemma C10_witness :
  let env := at_time t0 alice in
  let value := 2 * ether + ether / 1000 in
  exists id st1 st2,
    openChannel env value alice bob ether ether 7200 deployed = Ok (id, st1)
    /\ openChannel env value alice bob 5 7 3600 st1 = Ok (id, st2)
    /\ channel_of id st2 = ChannelData.mk alice bob 5 7 0 3600 true
    /\ this_balance st2 = 2 * value.
Proof.
  intros env value.
  assert (H1 : exists id st1,
    openChannel env value alice bob ether ether 7200 deployed = Ok (id, st1))
    by (do 2 eexists; vm_compute; reflexivity).
  destruct H1 as (id & st1 & H1).
  assert (H2 : exists id2 st2,
    openChannel env value alice bob 5 7 3600 st1 = Ok (id2, st2)).
  { vm_compute in H1. injection H1 as <- <-.
    do 2 eexists. vm_compute. reflexivity. }
  destruct H2 as (id2 & st2 & H2).
  destruct (C10_same_block_reopen_overwrites env env value value alice bob
              ether ether 7200 5 7 3600 deployed id st1 id2 st2
              eq_refl eq_refl H1 H2)
    as (_ & -> & _ & Hsecond & _ & Hbal & _).
  exists id, st1, st2. splits; [exact H1|exact H2|exact Hsecond|].
  rewrite Hbal. vm_compute. reflexivity.
Defined.

Ltac by_computation :=
  vm_compute; first [reflexivity | discriminate | congruence].

Lemma X2_witness :
  exists st',
    openChannel (at_time t0 alice) ether alice bob 5 7 3600 disputed_at_once
    = Ok (cid, st')
    /\ this_balance st' = this_balance disputed_at_once + ether
    /\ inDispute_of cid st' = true
    /\ updateChannel (signed cid 1 6 6) st' = Err ChannelInDispute.
Proof.
  assert (Hopen : exists st',
    openChannel (at_time t0 alice) ether alice bob 5 7 3600 disputed_at_once
    = Ok (cid, st')) by (eexists; vm_compute; reflexivity).
  destruct Hopen as [st' Hopen]. exists st'.
  destruct (X2_openChannel_frame _ _ _ _ _ _ _ _ _ _ Hopen)
    as (Hbal & _ & _ & Hdis & Hfrozen).
  splits.
  - exact Hopen.
  - exact Hbal.
  - rewrite (proj1 (Hdis cid)). by_computation.
  - apply Hfrozen; by_computation.
Defined.

Lemma X3_witness :
  updateChannel update1 disputed = Err ChannelInDispute
  /\ closeChannel (at_time (t0 + 20) bob) cid no_update disputed
     = Err ChannelInDispute.
Proof.
  assert (Hd : inDispute_of (StateUpdate.channelId update1) disputed = true)
    by by_computation.
  assert (Ha : ChannelData.isActive
                 (channel_of (StateUpdate.channelId update1) disputed) = true)
    by by_computation.
  destruct (X3_disputed_channel_is_frozen update1 disputed Hd Ha)
    as (Hup & _ & Hclose).
  split; [exact Hup|].
  destruct (Hclose (at_time (t0 + 20) bob) no_update) as [Hc _];
    [by_computation|].
  exact Hc.
Defined.

Lemma X6_witness :
  exists st',
    resolveDispute (at_time (t0 + 20) alice) cid update2 two_channels_disputed
    = Ok (tt, st')
    /\ inDispute_of cid st' = false
    /\ channel_of cid st' = channel_of cid two_channels_disputed
    /\ channel_of cid2 st'
       = ChannelData.mk carol bob (2 * ether) 0 3 7200 true.
Proof.
  destruct (X6_resolveDispute_other_channel (at_time (t0 + 20) alice) cid
              update2 two_channels_disputed)
    as (st' & Hrun & Hd & _ & Hc & Hother & _).
  - by_computation.
  - by_computation.
  - by_computation.
  - by_computation.
  - unfold valid_update. splits; by_computation.
  - exists st'. splits; [exact Hrun|exact Hd|exact Hc|].
    change cid2 with (StateUpdate.channelId update2).
    rewrite Hother. by_computation.
Defined.

Lemma X7_witness :
  let ignored := StateUpdate.mk cid 0 7 9 [] [] in
  exists st',
    closeChannel (at_time (t0 + 30) alice) circle_cid ignored with_circle
    = Ok (tt, st')
    /\ payments st' = [(alice, ether)]
    /\ channel_of circle_cid st'
       = ChannelData.mk alice circle ether 0 0 7200 false.
Proof.
  intros ignored.
  destruct (X7_closeChannel_without_update (at_time (t0 + 30) alice)
              circle_cid ignored with_circle eq_refl)
    as (Hiff & Heff & _).
  destruct (proj2 Hiff) as [st' Hrun].
  { splits; try by_computation.
    unfold payout_possible. splits.
    - by_computation.
    - intros _. split; by_computation.
    - intros Hpos. vm_compute in Hpos. discriminate. }
  exists st'. destruct (Heff st' Hrun) as (Hpay & Hch & _).
  splits; [exact Hrun| |].
  - rewrite Hpay. by_computation.
  - rewrite Hch. by_computation.
Defined.

Lemma X8_witness :
  exists st',
    closeChannel (at_time (t0 + 30) alice) cid update2 two_channels
    = Ok (tt, st')
    /\ channel_of cid2 st'
       = ChannelData.mk carol bob (2 * ether) 0 3 7200 true
    /\ channel_of cid st' = ChannelData.mk alice bob ether ether 0 7200 false
    /\ payments st' = [(alice, ether); (bob, ether)].
Proof.
  assert (Hrun : exists st',
    closeChannel (at_time (t0 + 30) alice) cid update2 two_channels
    = Ok (tt, st')) by (eexists; vm_compute; reflexivity).
  destruct Hrun as [st' Hrun]. exists st'.
  assert (Hne : StateUpdate.channelId update2 <> cid) by by_computation.
  assert (Hn : 0 < StateUpdate.nonce update2) by by_computation.
  destruct (X8_closeChannel_update_of_other_channel _ _ _ _ _ Hne Hn Hrun)
    as (_ & Hother & Hclosed & Hpay).
  splits.
  - exact Hrun.
  - change cid2 with (StateUpdate.channelId update2). rewrite Hother.
    by_computation.
  - rewrite Hclosed. by_computation.
  - rewrite Hpay. by_computation.
Defined.

Lemma X9_witness :
  exists st',
    updateChannel update1 opened = Ok (tt, st')
    /\ channel_of cid st'
       = ChannelData.mk alice bob (ether / 2) (3 * ether / 2) 1 7200 true
    /\ this_balance st' = this_balance opened
    /\ payments st' = payments opened.
Proof.
  assert (Hrun : exists st', updateChannel update1 opened = Ok (tt, st'))
    by (eexists; vm_compute; reflexivity).
  destruct Hrun as [st' Hrun]. exists st'.
  destruct (X9_updateChannel_frame _ _ _ Hrun)
    as (Hch & _ & _ & _ & Hbal & Hpay & _).
  splits; [exact Hrun| |exact Hbal|exact Hpay].
  change cid with (StateUpdate.channelId update1). rewrite Hch.
  by_computation.
Defined.

Lemma X5_witness :
  exists st',
    dispatch (at_time (t0 + 20) carol) (UpdateChannel update2)
      two_channels_disputed = Ok (tt, st')
    /\ inDispute_of cid st' = true
    /\ disputeTimeout_of cid st' = t0 + 10 + DISPUTE_TIMEOUT
    /\ channel_of cid st' = channel_of cid two_channels_disputed.
Proof.
  assert (Hrun : exists st',
    dispatch (at_time (t0 + 20) carol) (UpdateChannel update2)
      two_channels_disputed = Ok (tt, st'))
    by (eexists; vm_compute; reflexivity).
  destruct Hrun as [st' Hrun]. exists st'.
  assert (Hdis : inDispute_of cid two_channels_disputed = true)
    by by_computation.
  assert (Hact : ChannelData.isActive (channel_of cid two_channels_disputed)
                 = true) by by_computation.
  destruct (X5_dispute_outlasts_other_calls (at_time (t0 + 20) carol)
              (UpdateChannel update2) two_channels_disputed st' cid Hrun
              Hdis Hact)
    as [[Hend _]|(Hd & Ht & [Hopen|Hc])];
    [destruct Hend|destruct Hopen|].
  splits; [exact Hrun|exact Hd| |exact Hc].
  rewrite Ht. by_computation.
Defined.

Lemma X11_witness :
  channel_wf (channel_of cid disputed_swept)
  /\ withdrawTimelock (at_time (t0 + 10 + DISPUTE_TIMEOUT + 1) bob) cid
       disputed_swept = Err TransferFailed.
Proof.
  destruct (X11_stored_channels_are_well_formed disputed_swept cid
              reachable_disputed_swept) as (_ & Hwf & _).
  split; [apply Hwf|]; by_computation.
Defined.

Lemma X12_witness :
  exists st',
    dispatch (at_time (t0 + 30) alice) (CloseChannel cid update1) opened
    = Ok (tt, st')
    /\ ChannelData.participant1 (channel_of cid st') = alice
    /\ ChannelData.participant2 (channel_of cid st') = bob
    /\ ChannelData.nonce (channel_of cid opened)
       <= ChannelData.nonce (channel_of cid st')
    /\ total (channel_of cid st') = 2 * ether.
Proof.
  assert (Hrun : exists st',
    dispatch (at_time (t0 + 30) alice) (CloseChannel cid update1) opened
    = Ok (tt, st')) by (eexists; vm_compute; reflexivity).
  destruct Hrun as [st' Hrun]. exists st'.
  destruct (X12_channel_record_history (at_time (t0 + 30) alice)
              (CloseChannel cid update1) opened st' cid Hrun)
    as [Hopen|(Hp1 & Hp2 & _ & Hn & _ & [Ht|Hc])];
    [destruct Hopen| |discriminate Hc].
  splits; [exact Hrun| | |exact Hn|].
  - rewrite Hp1. by_computation.
  - rewrite Hp2. by_computation.
  - rewrite Ht. by_computation.
Defined.

Lemma X14_witness :
  exists st',
    setRelayerAuthorization (at_time (t0 + 20) admin) carol false opened
    = Ok (tt, st')
    /\ authorized carol opened = true
    /\ authorized carol st' = false
    /\ relayTransaction update1 carol (relay_signature update1 carol) st'
       = Err UnauthorizedRelayer.
Proof.
  destruct (X14_relayer_authorization (at_time (t0 + 20) admin) carol false
              opened)
    as (st' & Hrun & Hoff & _ & _ & _ & _ & Hrej & _).
  - by_computation.
  - exists st'. splits; [exact Hrun|by_computation|exact Hoff|].
    by apply Hrej.
Defined.

Lemma X15_witness :
  exists st',
    updateFees (at_time (t0 + 20) admin) (5 * ether) 0 opened = Ok (tt, st')
    /\ channelFee st' = 5 * ether
    /\ forall r,
         openChannel (at_time (t0 + 30) carol) (2 * ether + ether / 1000)
           carol bob ether ether 7200 st' <> Ok r.
Proof.
  destruct (X15_updateFees_takes_effect (at_time (t0 + 20) admin) (5 * ether)
              0 opened)
    as (st' & Hrun & Hcf & _ & _ & _ & _ & Hopen & _).
  - by_computation.
  - exists st'. splits; [exact Hrun|exact Hcf|].
    intros r Hr.
    destruct (proj1 (Hopen (at_time (t0 + 30) carol)
                       (2 * ether + ether / 1000) carol bob ether ether 7200)
                (ex_intro _ r Hr)) as (_ & _ & _ & _ & _ & Hshort).
    vm_compute in Hshort. congruence.
Defined.

Lemma X19_witness :
  getChannel cid2 opened = Ok (zero, opened)
  /\ updateChannel update2 opened = Err ChannelInactive
  /\ disputeChannel (at_time (t0 + 10) carol) cid2 opened = Err NotParticipant
  /\ emergencyWithdraw (at_time (t0 + 10) admin) cid2 opened
     = Ok (tt, opened).
Proof.
  destruct (X19_unknown_keys opened cid2)
    as (Hget & Hup & Hpart & Hem & _); [by_computation|].
  splits.
  - exact Hget.
  - by apply Hup.
  - destruct (Hpart (at_time (t0 + 10) carol) no_update) as (_ & Hd & _);
      [by_computation|exact Hd].
  - apply Hem. by_computation.
Defined.

Lemma X20_witness :
  length (encodePacked [abi_bytes32 7; abi_uint256 1; abi_uint256 2;
                        abi_uint256 3]) = 128%nat
  /\ encodePacked [abi_bytes32 7; abi_uint256 1; abi_uint256 2;
                   abi_uint256 3]
     <> encodePacked [abi_bytes32 7; abi_uint256 1; abi_uint256 3;
                      abi_uint256 2].
Proof.
  assert (Hr : forall v, v <= 7 -> v <= MAX_UINT256).
  { intros v Hv. apply N.le_trans with 7; [exact Hv|]. by_computation. }
  destruct (X20_packed_encoding_is_injective
              [abi_bytes32 7; abi_uint256 1; abi_uint256 2; abi_uint256 3]
              [abi_bytes32 7; abi_uint256 1; abi_uint256 3; abi_uint256 2])
    as (Hlen & Hinj & _).
  - repeat constructor.
  - repeat constructor; cbn [in_range]; apply Hr; by_computation.
  - repeat constructor; cbn [in_range]; apply Hr; by_computation.
  - split; [exact Hlen|].
    intros Heq. apply Hinj in Heq. injection Heq as Heq _. discriminate Heq.
Defined.

Lemma X21_witness :
  exists st1,
    relayTransaction update1 carol (relay_signature update1 carol) opened
    = Ok (tt, st1)
    /\ relayTransaction (signed cid 1 (2 * ether) 0) carol
         (relay_signature update1 carol) opened
       = Ok (tt, pay carol (relayerFee opened)
                   (apply_update (signed cid 1 (2 * ether) 0) opened)).
Proof.
  assert (Hrun : exists st1,
    relayTransaction update1 carol (relay_signature update1 carol) opened
    = Ok (tt, st1)) by (eexists; vm_compute; reflexivity).
  destruct Hrun as [st1 Hrun]. exists st1. split; [exact Hrun|].
  assert (Hid : StateUpdate.channelId (signed cid 1 (2 * ether) 0)
                = StateUpdate.channelId update1) by by_computation.
  assert (Hn : StateUpdate.nonce (signed cid 1 (2 * ether) 0)
               = StateUpdate.nonce update1) by by_computation.
  assert (Hv : valid_update (signed cid 1 (2 * ether) 0) opened)
    by (unfold valid_update; splits; by_computation).
  exact (X21_relayer_signature_leaves_balances_open update1
           (signed cid 1 (2 * ether) 0) carol
           (relay_signature update1 carol) opened st1 Hrun Hid Hn Hv).
Defined.

Lemma X22_witness :
  openChannel (at_time (t0 + 5) carol) (2 * ether + ether / 1000) carol bob
    ether ether 7200 opened = Ok (cid2, two_channels)
  /\ getChannel cid2 two_channels
     = Ok (ChannelData.mk carol bob ether ether 0 7200 true, two_channels)
  /\ disputeChannel (at_time (t0 + 6) bob) cid2 two_channels
     = Ok (tt, dispute_raised (at_time (t0 + 6) bob) cid2 two_channels).
Proof.
  assert (Hrun :
    openChannel (at_time (t0 + 5) carol) (2 * ether + ether / 1000) carol bob
      ether ether 7200 opened = Ok (cid2, two_channels)) by by_computation.
  destruct (X22_openChannel_then_getChannel (at_time (t0 + 5) carol)
              (2 * ether + ether / 1000) carol bob ether ether 7200 opened
              cid2 two_channels Hrun)
    as (Hget & _ & _ & Hdispute).
  splits; [exact Hrun|exact Hget|].
  apply Hdispute.
  - right. reflexivity.
  - by_computation.
  - apply N.leb_le. by_computation.
Defined.

Lemma C3_witness :
  let st := apply_update update1 opened in
  ChannelData.nonce (channel_of cid opened) = 0
  /\ updateChannel update1 opened = Ok (tt, st)
  /\ ChannelData.nonce (channel_of cid st) = 1
  /\ updateChannel update1 st = Err InvalidNonce
  /\ updateChannel (with_signatures [] [] update1) st = Err InvalidNonce
  /\ exec (updateChannel update1) st = st.
Proof.
  intros st.
  assert (Hv : valid_update update1 opened)
    by (unfold valid_update; splits; by_computation).
  destruct (proj2 (proj2 (C3_nonce_strictly_increases update1 opened)) Hv)
    as (st' & Hrun & Hlt & Hn).
  assert (Hst : st' = st).
  { apply updateChannel_Ok in Hrun as [_ Heq]. by injection Heq. }
  subst st'.
  assert (Hle : StateUpdate.nonce update1
                <= ChannelData.nonce
                     (channel_of (StateUpdate.channelId update1) st))
    by (vm_compute; discriminate).
  destruct (proj1 (C3_nonce_strictly_increases update1 st) Hle
              (StateUpdate.signature1 update1)
              (StateUpdate.signature2 update1))
    as (_ & Hx & Hsame).
  destruct (proj1 (C3_nonce_strictly_increases update1 st) Hle [] [])
    as (_ & _ & Hbare).
  splits.
  - by_computation.
  - exact Hrun.
  - exact Hn.
  - apply Hsame; by_computation.
  - apply Hbare; by_computation.
  - exact Hx.
Defined.

Lemma X4_witness :
  let deadline := t0 + 10 + DISPUTE_TIMEOUT in
  let later := run [(at_time (t0 + 20) admin, UpdateFees 0 0)] disputed in
  disputeChannel (at_time (t0 + 10) alice) cid opened = Ok (tt, disputed)
  /\ withdrawTimelock (at_time deadline bob) cid later
     = Err DisputePeriodNotEnded
  /\ resolveDispute (at_time (deadline + 1) bob) cid update1 later
     = Err (Revert "Dispute timeout exceeded").
Proof.
  cbv zeta.
  assert (Hrun : disputeChannel (at_time (t0 + 10) alice) cid opened
                 = Ok (tt, disputed)) by by_computation.
  destruct (X4_dispute_window (at_time (t0 + 10) alice) cid opened disputed
              Hrun) as (_ & _ & _ & _ & _ & Hwin).
  assert (Hd : inDispute_of cid
                 (run [(at_time (t0 + 20) admin, UpdateFees 0 0)] disputed)
               = true) by by_computation.
  assert (Ht : disputeTimeout_of cid
                 (run [(at_time (t0 + 20) admin, UpdateFees 0 0)] disputed)
               = block_timestamp (at_time (t0 + 10) alice) + DISPUTE_TIMEOUT)
    by by_computation.
  assert (Hc : channel_of cid
                 (run [(at_time (t0 + 20) admin, UpdateFees 0 0)] disputed)
               = channel_of cid opened) by by_computation.
  splits.
  - exact Hrun.
  - destruct (Hwin _ Hd Ht Hc (at_time (t0 + 10 + DISPUTE_TIMEOUT) bob))
      as [Hbefore _]; [by_computation|].
    destruct Hbefore as [Hw _]; [by_computation|]. exact Hw.
  - destruct (Hwin _ Hd Ht Hc (at_time (t0 + 10 + DISPUTE_TIMEOUT + 1) bob))
      as [_ Hafter]; [by_computation|].
    apply (Hafter ltac:(by_computation) update1).
Defined.

Lemma X10_witness :
  dispatch (at_time (t0 + 30) alice) (CloseChannel cid update1) opened
  = Ok (tt, exec (dispatch (at_time (t0 + 30) alice)
                    (CloseChannel cid update1)) opened)
  /\ paid (exec (dispatch (at_time (t0 + 30) alice)
                   (CloseChannel cid update1)) opened)
     = 2 * ether
  /\ this_balance (exec (dispatch (at_time (t0 + 30) alice)
                           (CloseChannel cid update1)) opened)
     = ether / 1000.
Proof.
  assert (Hrun :
    dispatch (at_time (t0 + 30) alice) (CloseChannel cid update1) opened
    = Ok (tt, exec (dispatch (at_time (t0 + 30) alice)
                      (CloseChannel cid update1)) opened))
    by by_computation.
  destruct (X10_what_each_call_pays (at_time (t0 + 30) alice)
              (CloseChannel cid update1) opened _ Hrun)
    as (Hpaid & _ & Hbal).
  splits; [exact Hrun| |].
  - rewrite Hpaid. by_computation.
  - rewrite Hbal. by_computation.
Defined.

Lemma X17_witness :
  emergencyWithdraw (at_time (t0 + 40) admin) cid two_channels_closed
  = Ok (tt, exec (emergencyWithdraw (at_time (t0 + 40) admin) cid)
              two_channels_closed)
  /\ total (channel_of cid two_channels_closed) = 2 * ether
  /\ ChannelData.balance1
       (channel_of cid
          (run [(at_time (t0 + 45) carol, UpdateChannel update2)]
             (exec (emergencyWithdraw (at_time (t0 + 40) admin) cid)
                two_channels_closed))) = 0
  /\ emergencyWithdraw (at_time (t0 + 50) admin) cid
       (run [(at_time (t0 + 45) carol, UpdateChannel update2)]
          (exec (emergencyWithdraw (at_time (t0 + 40) admin) cid)
             two_channels_closed))
     = Ok (tt, run [(at_time (t0 + 45) carol, UpdateChannel update2)]
                 (exec (emergencyWithdraw (at_time (t0 + 40) admin) cid)
                    two_channels_closed)).
Proof.
  assert (Hrun :
    emergencyWithdraw (at_time (t0 + 40) admin) cid two_channels_closed
    = Ok (tt, exec (emergencyWithdraw (at_time (t0 + 40) admin) cid)
                two_channels_closed)) by by_computation.
  assert (Hall : Forall (fun tx => ~ opens (fst tx) (snd tx) cid)
                   [(at_time (t0 + 45) carol, UpdateChannel update2)]).
  { constructor; [|constructor]. intros Hopen. exact Hopen. }
  destruct (X17_emergencyWithdraw_pays_once (at_time (t0 + 40) admin)
              cid two_channels_closed _ Hrun
              [(at_time (t0 + 45) carol, UpdateChannel update2)] Hall)
    as (_ & Hb1 & _ & Hagain).
  splits; [exact Hrun|by_computation|exact Hb1|].
  apply Hagain. by_computation.
Defined.


End Witnesses.
